(** * DomainTool: the expired-domains list view

    A shallow embedding of [src/components/domains/DomainList/index.tsx]:
    the GraphQL query built by [getDomains], the fetch-and-map routine
    [fetchData], the two state transitions [refresh] and [fetchNext] of the
    [DomainList] component, and the relative-time formatter [expiredAt].

    The component relies on two libraries whose code is not part of the
    repository.  The Apollo client is taken as a function from the variables
    of a query to the way its promise settles.  The date library is modelled
    in [Module Moment] below, as far as the component uses it. *)

From Stdlib Require Import ZArith QArith Qround List String Ascii Bool Lia.
From Stdlib Require Import DecimalString Lqa.
Import ListNotations.

Open Scope Z_scope.

(** ** The date library

    A moment is kept as the calendar fields of an instant, the way an ISO
    date string spells them: year, zero-based month, day of the month, and
    the milliseconds elapsed since midnight.  The local zone is UTC, so the
    offset of every moment is zero.  The library computes month differences
    in floating point; the model computes them in exact rationals. *)
Module Moment.

Record t : Type := mk { year : Z; month : Z; date : Z; time : Z }.

Definition msPerDay : Z := 86400000.

Definition isLeapYear (y : Z) : bool :=
  ((y mod 4 =? 0) && negb (y mod 100 =? 0)) || (y mod 400 =? 0).

(** [daysInMonth(year, month)], for a month already reduced to 0..11. *)
Definition daysInMonth (y m : Z) : Z :=
  if m =? 1 then (if isLeapYear y then 29 else 28)
  else 31 - ((m mod 7) mod 2).

(** A moment built from fields that overflow (a 13th month, a 30th of
    February, a 25th hour) is invalid. *)
Definition isValid (a : t) : bool :=
  (0 <=? month a) && (month a <? 12) &&
  (1 <=? date a) && (date a <=? daysInMonth (year a) (month a)) &&
  (0 <=? time a) && (time a <? msPerDay).

(** Days between 1 January of year 0 and 1 January of year [y]. *)
Definition daysBeforeYear (y : Z) : Z :=
  365 * y + (y + 3) / 4 - (y + 99) / 100 + (y + 399) / 400.

Fixpoint daysBeforeMonth_aux (y : Z) (n : nat) : Z :=
  match n with
  | O => 0
  | S k => daysBeforeMonth_aux y k + daysInMonth y (Z.of_nat k)
  end.

Definition daysBeforeMonth (y m : Z) : Z := daysBeforeMonth_aux y (Z.to_nat m).

Definition epochDay : Z := 719528.

(** Day number of a calendar date, counted from 1 January 1970. *)
Definition dayNumber (y m d : Z) : Z :=
  daysBeforeYear y + daysBeforeMonth y m + (d - 1) - epochDay.

(** [valueOf()]: milliseconds since the Unix epoch. *)
Definition valueOf (a : t) : Z :=
  dayNumber (year a) (month a) (date a) * msPerDay + time a.

(** The offset of the local zone, in minutes.  The model is of a zone whose
    offset never changes, and takes UTC: there is no daylight saving, so
    elapsed time and wall-clock time agree.  Where the offset does change,
    the library counts days on the wall clock and hours, minutes and seconds
    on elapsed time; that is outside this model. *)
Definition utcOffset (a : t) : Z := 0.

(** [add(k, 'months')]: the month index moves by [k], the year follows, and
    the day of the month is clamped to the length of the month reached. *)
Definition add_months (a : t) (k : Z) : t :=
  let idx := year a * 12 + month a + k in
  let y := idx / 12 in
  let m := idx mod 12 in
  mk y m (Z.min (date a) (daysInMonth y m)) (time a).

(** One step of [subtract(n, 'days')]: the day before, at the same time. *)
Definition prev_day (a : t) : t :=
  if 1 <? date a then mk (year a) (month a) (date a - 1) (time a)
  else
    let idx := year a * 12 + month a - 1 in
    let y := idx / 12 in
    let m := idx mod 12 in
    mk y m (daysInMonth y m) (time a).

Definition subtract_days (n : nat) (a : t) : t := Nat.iter n prev_day a.

(** [moment(moment().format('YYYY-MM-DD'))]: midnight of the same day. *)
Definition startOfDay (a : t) : t := mk (year a) (month a) (date a) 0.

(** [monthDiff(a, b)] once [a.date() >= b.date()] holds. *)
Definition monthDiff_ordered (a b : t) : Q :=
  let wholeMonthDiff := (year b - year a) * 12 + (month b - month a) in
  let anchor := add_months a wholeMonthDiff in
  let adjust :=
    if valueOf b - valueOf anchor <? 0 then
      let anchor2 := add_months a (wholeMonthDiff - 1) in
      (inject_Z (valueOf b - valueOf anchor)
       / inject_Z (valueOf anchor - valueOf anchor2))%Q
    else
      let anchor2 := add_months a (wholeMonthDiff + 1) in
      (inject_Z (valueOf b - valueOf anchor)
       / inject_Z (valueOf anchor2 - valueOf anchor))%Q in
  (- (inject_Z wholeMonthDiff + adjust))%Q.

Definition monthDiff (a b : t) : Q :=
  if date a <? date b then (- monthDiff_ordered b a)%Q
  else monthDiff_ordered a b.

(** [absFloor]: rounding towards zero. *)
Definition absFloor (x : Q) : Z :=
  if Qle_bool 0 x then Qfloor x else Qceiling x.

Inductive unitOfTime : Type :=
  Years | Months | Days | Hours | Minutes | Seconds.

(** [a.diff(b, units)].  [None] stands for [NaN], the answer when either
    moment is invalid. *)
Definition diff (a b : t) (u : unitOfTime) : option Z :=
  if negb (isValid a) then None
  else if negb (isValid b) then None
  else
    let zoneDelta := (utcOffset b - utcOffset a) * 60000 in
    let output :=
      match u with
      | Years => (monthDiff a b / inject_Z 12)%Q
      | Months => monthDiff a b
      | Seconds => (inject_Z (valueOf a - valueOf b) / inject_Z 1000)%Q
      | Minutes => (inject_Z (valueOf a - valueOf b) / inject_Z 60000)%Q
      | Hours => (inject_Z (valueOf a - valueOf b) / inject_Z 3600000)%Q
      | Days =>
          (inject_Z (valueOf a - valueOf b - zoneDelta) / inject_Z msPerDay)%Q
      end in
    Some (absFloor output).

(** Months counted from January of year 0, the first day of the month with
    a given index, and its length: the vocabulary of the calendar lemmas. *)
Definition monthIndex (a : t) : Z := year a * 12 + month a.

Definition firstOfMonth (i : Z) : Z := dayNumber (i / 12) (i mod 12) 1.

Definition monthLength (i : Z) : Z := daysInMonth (i / 12) (i mod 12).

(** The calendar condition under which [monthDiff a b] is at least [k]:
    [b] lies in a month more than [k] months before that of [a], or exactly
    [k] months before and not after the anchor, the moment of the compared
    month with the day and time of the other. *)
Definition atLeastMonths (k : Z) (a b : t) : Prop :=
  if date a <? date b then
    k < monthIndex a - monthIndex b \/
    (monthIndex a - monthIndex b = k /\ valueOf (add_months b k) <= valueOf a)
  else
    monthIndex b - monthIndex a < - k \/
    (monthIndex b - monthIndex a = - k /\
     valueOf b <= valueOf (add_months a (- k))).

End Moment.

(** ** GraphQL data *)

(** The variables of the [DomainsList] query. *)
Module Query.

Record IntFilter : Type := { equalTo : Z }.

Record DateTimeFilter : Type :=
  { greaterThan : Moment.t; lessThan : Moment.t }.

Record DomainsFilter : Type :=
  { validity : string; level : IntFilter; expiresAtUtc : DateTimeFilter }.

Record DomainOrder : Type := { field : string; direction : string }.

Record Variables : Type :=
  { after : option string;
    first : Z;
    where_ : DomainsFilter;
    order : DomainOrder }.

End Query.

Module Page.
Record t : Type := mk
  { startCursor : string;
    endCursor : string;
    hasNextPage : bool;
    hasPreviousPage : bool }.
End Page.

Module Operator.
Record t : Type := mk { id : string; address : string }.
End Operator.

Module Node.
Record t : Type := mk
  { id : string;
    name : string;
    level : Z;
    owner : string;
    operators : list Operator.t;
    parentOwner : option string;
    expires : string }.
End Node.

(** The selection set of the query: [data.domains.edges[].node] and
    [data.domains.pageInfo]. *)
Module Response.

Record Edge : Type := { node : Node.t }.

Record Connection : Type := { edges : list Edge; pageInfo : Page.t }.

Record Data : Type := { domains : Connection }.

(** An [ApolloQueryResult]; its [data] may be missing. *)
Record ApolloQueryResult : Type := { data : option Data }.

End Response.

Module Domain.
Record t : Type := mk { name : string; expires : string }.
End Domain.

(** ** Effects

    A promise settles by fulfilling with a value or rejecting with an error.
    The Apollo client answers a query with a promise of a result, which the
    component also guards against being null. *)

Inductive Error : Type :=
| ApolloError (message : string)
| TypeError (message : string).

Inductive Settled (A : Type) : Type :=
| Fulfilled (value : A)
| Rejected (reason : Error).
Arguments Fulfilled {A} value.
Arguments Rejected {A} reason.

Definition ApolloClient : Type :=
  Query.Variables -> Settled (option Response.ApolloQueryResult).

Inductive ConsoleEntry : Type :=
| Log (message : string) (arg : option string)
| Err (e : Error).

(** The two [useState] cells of the component, the console, and the queries
    sent so far.  [None] in [domains] is JavaScript's [undefined], which
    [refresh] stores when a result carries no data; [None] in [pageInfo] is
    the initial [null]. *)
Record Store : Type := mkStore
  { domains : option (list Domain.t);
    pageInfo : option Page.t;
    console : list ConsoleEntry;
    requests : list Query.Variables }.

Inductive Completion (A : Type) : Type :=
| Return (a : A)
| Throw (e : Error).
Arguments Return {A} a.
Arguments Throw {A} e.

(** Computations over the store that may throw (an async function whose
    promise rejects). *)
Definition M (A : Type) : Type := Store -> Completion A * Store.

Definition ret {A : Type} (a : A) : M A := fun s => (Return a, s).

Definition throw {A : Type} (e : Error) : M A := fun s => (Throw e, s).

Definition bind {A B : Type} (m : M A) (k : A -> M B) : M B :=
  fun s =>
    match m s with
    | (Return a, s') => k a s'
    | (Throw e, s') => (Throw e, s')
    end.

(** [p.catch(h)]. *)
Definition catch {A : Type} (m : M A) (h : Error -> M A) : M A :=
  fun s =>
    match m s with
    | (Return a, s') => (Return a, s')
    | (Throw e, s') => h e s'
    end.

Notation "x <- m ;; k" := (bind m (fun x => k))
  (at level 61, m at next level, right associativity).
Notation "m ;; k" := (bind m (fun _ => k))
  (at level 61, right associativity).

Definition console_log (message : string) (arg : option string) : M unit :=
  fun s =>
    (Return tt,
     mkStore (domains s) (pageInfo s) (console s ++ [Log message arg])
       (requests s)).

Definition console_error (e : Error) : M unit :=
  fun s =>
    (Return tt,
     mkStore (domains s) (pageInfo s) (console s ++ [Err e]) (requests s)).

Definition setDomains (d : option (list Domain.t)) : M unit :=
  fun s => (Return tt, mkStore d (pageInfo s) (console s) (requests s)).

Definition setPageInfo (p : option Page.t) : M unit :=
  fun s => (Return tt, mkStore (domains s) p (console s) (requests s)).

Definition get_domains : M (option (list Domain.t)) :=
  fun s => (Return (domains s), s).

Definition get_pageInfo : M (option Page.t) :=
  fun s => (Return (pageInfo s), s).

(** [client.query({ query, variables })]: the query is sent, and the promise
    settles the way the client says. *)
Definition client_query (client : ApolloClient) (variables : Query.Variables)
  : M (option Response.ApolloQueryResult) :=
  fun s =>
    let s' :=
      mkStore (domains s) (pageInfo s) (console s)
        (requests s ++ [variables]) in
    match client variables with
    | Fulfilled result => (Return result, s')
    | Rejected e => (Throw e, s')
    end.

(** Spreading a value into an array literal: [undefined] is not iterable. *)
Definition spread (x : option (list Domain.t)) : M (list Domain.t) :=
  match x with
  | Some l => ret l
  | None => throw (TypeError "undefined is not iterable")
  end.

(** ** The component *)

Definition getDomains (client : ApolloClient)
  (startDate endDate : Moment.t) (after : option string)
  : M (option Response.ApolloQueryResult) :=
  client_query client
    {| Query.after := after;
       Query.first := 50;
       Query.where_ :=
         {| Query.validity := "EXPIRED";
            Query.level := {| Query.equalTo := 2 |};
            Query.expiresAtUtc :=
              {| Query.greaterThan := startDate;
                 Query.lessThan := endDate |} |};
       Query.order :=
         {| Query.field := "EXPIRES_AT"; Query.direction := "DESC" |} |}.

Definition fetchData (client : ApolloClient) (now : Moment.t)
  (after : option string) : M (option (list Domain.t)) :=
  console_log "loading...." after ;;
  let today := Moment.startOfDay now in
  let startDate := Moment.subtract_days 7 today in
  let endDate := Moment.subtract_days 5 today in
  catch
    (result <- getDomains client startDate endDate after ;;
     match result with
     | Some {| Response.data := Some data |} =>
         let domains :=
           map (fun i =>
                  let node := Response.node i in
                  {| Domain.name := Node.name node;
                     Domain.expires := Node.expires node |})
               (Response.edges (Response.domains data)) in
         setPageInfo (Some (Response.pageInfo (Response.domains data))) ;;
         ret (Some domains)
     | _ => ret None
     end)
    (fun e => console_error e ;; ret (Some [])).

Definition refresh (client : ApolloClient) (now : Moment.t) : M unit :=
  domains <- fetchData client now None ;;
  setDomains domains.

(** The callback closes over the [pageInfo] and [domains] of the render that
    created it; events are handled one at a time, so these are the values of
    the store when the callback starts. *)
Definition fetchNext (client : ApolloClient) (now : Moment.t) : M unit :=
  pageInfo <- get_pageInfo ;;
  domains <- get_domains ;;
  match pageInfo with
  | Some pageInfo =>
      if Page.hasNextPage pageInfo then
        items <- fetchData client now (Some (Page.endCursor pageInfo)) ;;
        head <- spread domains ;;
        tail <- spread items ;;
        setDomains (Some (head ++ tail))
      else ret tt
  | None => ret tt
  end.

(** A number in a template literal; [None] is [NaN]. *)
Definition Number_toString (n : option Z) : string :=
  match n with
  | Some z => NilZero.string_of_int (Z.to_int z)
  | None => "NaN"
  end.

(** [n >= 1]; every comparison with [NaN] is false. *)
Definition ge_1 (n : option Z) : bool :=
  match n with
  | Some z => 1 <=? z
  | None => false
  end.

(** [expiredAt], for the library's parser [moment] of date strings and the
    current moment [now]; the calls to [moment()] within one run are taken
    to read the same instant. *)
Definition expiredAt (moment : string -> Moment.t) (now : Moment.t)
  (expires : string) : string :=
  let years := Moment.diff now (moment expires) Moment.Years in
  if ge_1 years then
    ("expired " ++ Number_toString years ++ " months ago")%string
  else
  let months := Moment.diff now (moment expires) Moment.Months in
  if ge_1 months then
    ("expired " ++ Number_toString months ++ " months ago")%string
  else
  let days := Moment.diff now (moment expires) Moment.Days in
  if ge_1 days then
    ("expired " ++ Number_toString days ++ " days ago")%string
  else
  let hours := Moment.diff now (moment expires) Moment.Hours in
  if ge_1 hours then
    ("expired " ++ Number_toString hours ++ " hours ago")%string
  else
  let minutes := Moment.diff now (moment expires) Moment.Minutes in
  if ge_1 minutes then
    ("expired " ++ Number_toString minutes ++ " minutes ago")%string
  else
  let seconds := Moment.diff now (moment expires) Moment.Seconds in
  if ge_1 seconds then
    ("expired " ++ Number_toString seconds ++ " seconds ago")%string
  else "expired just now"%string.

(** The return statement [expiredAt] reaches: the unit whose threshold check
    succeeds, if any. *)
Definition bucket (moment : string -> Moment.t) (now : Moment.t)
  (expires : string) : option Moment.unitOfTime :=
  let count := Moment.diff now (moment expires) in
  if ge_1 (count Moment.Years) then Some Moment.Years
  else if ge_1 (count Moment.Months) then Some Moment.Months
  else if ge_1 (count Moment.Days) then Some Moment.Days
  else if ge_1 (count Moment.Hours) then Some Moment.Hours
  else if ge_1 (count Moment.Minutes) then Some Moment.Minutes
  else if ge_1 (count Moment.Seconds) then Some Moment.Seconds
  else None.

(** Units from fine to coarse; "just now" is below them all. *)
Definition coarseness (u : Moment.unitOfTime) : Z :=
  match u with
  | Moment.Seconds => 1
  | Moment.Minutes => 2
  | Moment.Hours => 3
  | Moment.Days => 4
  | Moment.Months => 5
  | Moment.Years => 6
  end.

Definition rank (b : option Moment.unitOfTime) : Z :=
  match b with
  | Some u => coarseness u
  | None => 0
  end.

(** The label the formatter prints for each return statement. *)
Definition label (u : Moment.unitOfTime) : string :=
  match u with
  | Moment.Years => "months"
  | Moment.Months => "months"
  | Moment.Days => "days"
  | Moment.Hours => "hours"
  | Moment.Minutes => "minutes"
  | Moment.Seconds => "seconds"
  end.


(** ** Vocabulary of the statements *)

(** The variables [fetchData] hands to [getDomains] at the moment [now]. *)
Definition query_variables (now : Moment.t) (after : option string)
  : Query.Variables :=
  {| Query.after := after;
     Query.first := 50;
     Query.where_ :=
       {| Query.validity := "EXPIRED";
          Query.level := {| Query.equalTo := 2 |};
          Query.expiresAtUtc :=
            {| Query.greaterThan :=
                 Moment.subtract_days 7 (Moment.startOfDay now);
               Query.lessThan :=
                 Moment.subtract_days 5 (Moment.startOfDay now) |} |};
     Query.order :=
       {| Query.field := "EXPIRES_AT"; Query.direction := "DESC" |} |}.

(** The entry [fetchData] makes of an edge. *)
Definition domain_of_edge (i : Response.Edge) : Domain.t :=
  {| Domain.name := Node.name (Response.node i);
     Domain.expires := Node.expires (Response.node i) |}.

(** A result that carries data. *)
Definition with_data (data : Response.Data)
  : Settled (option Response.ApolloQueryResult) :=
  Fulfilled (Some {| Response.data := Some data |}).

(** A fulfilled promise whose result is null or has no data. *)
Definition without_data (r : Settled (option Response.ApolloQueryResult))
  : Prop :=
  r = Fulfilled None \/ r = Fulfilled (Some {| Response.data := None |}).

(** The setting of the statements about elapsed time: a zone whose offset
    is the same at every moment. *)
Definition offset_never_changes : Prop :=
  forall a b : Moment.t, Moment.utcOffset a = Moment.utcOffset b.

(** A string of ASCII characters, on which bytes and UTF-16 code units
    coincide. *)
Fixpoint ascii_only (s : string) : bool :=
  match s with
  | EmptyString => true
  | String c rest => (nat_of_ascii c <? 128)%nat && ascii_only rest
  end.

(** The age of an expiry date in milliseconds. *)
Definition age (now expires : Moment.t) : Z :=
  Moment.valueOf now - Moment.valueOf expires.

(** A parser for date strings of the shape [YYYY-MM-DDTHH:mm:ssZ], enough to
    run the formatter on examples; any other string gives an invalid
    moment. *)
Definition digit (c : ascii) : option Z :=
  let n := Z.of_nat (nat_of_ascii c) in
  if (48 <=? n) && (n <=? 57) then Some (n - 48) else None.

Fixpoint digits (s : string) (acc : Z) : option Z :=
  match s with
  | EmptyString => Some acc
  | String c rest =>
      match digit c with
      | Some d => digits rest (10 * acc + d)
      | None => None
      end
  end.

Definition number_at (s : string) (pos len : nat) : option Z :=
  let part := substring pos len s in
  if Nat.eqb (String.length part) len then digits part 0 else None.

Definition invalid_moment : Moment.t := Moment.mk 0 0 0 0.

Definition parse_iso (s : string) : Moment.t :=
  match number_at s 0 4, number_at s 5 2, number_at s 8 2,
        number_at s 11 2, number_at s 14 2, number_at s 17 2 with
  | Some y, Some mo, Some d, Some h, Some mi, Some sec =>
      if String.eqb (substring 4 1 s) "-" && String.eqb (substring 7 1 s) "-"
         && String.eqb (substring 10 1 s) "T"
         && String.eqb (substring 13 1 s) ":"
         && String.eqb (substring 16 1 s) ":"
         && String.eqb (substring 19 2 s) "Z"
         && (h <? 24) && (mi <? 60) && (sec <? 60)
      then Moment.mk y (mo - 1) d (((h * 60 + mi) * 60 + sec) * 1000)
      else invalid_moment
  | _, _, _, _, _, _ => invalid_moment
  end.

(** ** Example data *)

Definition example_now : Moment.t := parse_iso "2022-05-10T09:30:00Z".

Definition example_edges : list Response.Edge :=
  [ {| Response.node :=
         Node.mk "d1" "alice.tez" 2 "tz1a" [] None "2022-05-04T10:00:00Z" |};
    {| Response.node :=
         Node.mk "d2" "bob.tez" 2 "tz1b" [] None "2022-05-03T08:15:00Z" |} ].

Definition page_more : Page.t := Page.mk "c0" "c1" true false.

Definition page_last : Page.t := Page.mk "c2" "c3" false true.

Definition example_data : Response.Data :=
  {| Response.domains :=
       {| Response.edges := example_edges; Response.pageInfo := page_more |}
  |}.

Definition client_ok : ApolloClient := fun _ => with_data example_data.

Definition client_down : ApolloClient :=
  fun _ => Rejected (ApolloError "Network error").

Definition carol : Domain.t := Domain.mk "carol.tez" "2022-05-04T23:00:00Z".

(** The component as mounted, after a last page, and with more to load. *)
Definition store_initial : Store := mkStore (Some []) None [] [].

Definition store_done : Store := mkStore (Some [carol]) (Some page_last) [] [].

Definition store_loaded : Store :=
  mkStore (Some [carol]) (Some page_more) [] [].

(** ** What the component renders *)

(** [format('MM/DD/YYYY hh:mm:ss')] of the date library: two-digit month and
    day, four-digit year, and the time on the 12-hour clock without the
    meridiem.  [zeroFill] pads the digits of a number with zeros on the left
    and puts a minus sign in front of a negative one. *)
Module MomentFormat.

Fixpoint zeros (n : nat) : string :=
  match n with
  | O => EmptyString
  | S k => String "0" (zeros k)
  end.

Definition zeroFill (number : Z) (targetLength : nat) : string :=
  let absNumber := NilZero.string_of_int (Z.to_int (Z.abs number)) in
  let zerosToFill := (targetLength - String.length absNumber)%nat in
  ((if (0 <=? number)%Z then "" else "-") ++ zeros zerosToFill ++ absNumber)
    %string.

Definition hours (a : Moment.t) : Z := Moment.time a / 3600000.

Definition minutes (a : Moment.t) : Z := (Moment.time a / 60000) mod 60.

Definition seconds (a : Moment.t) : Z := (Moment.time a / 1000) mod 60.

(** The [hh] token: [hours % 12 || 12]. *)
Definition hFormat (a : Moment.t) : Z :=
  if hours a mod 12 =? 0 then 12 else hours a mod 12.

Definition format (a : Moment.t) : string :=
  if Moment.isValid a then
    (zeroFill (Moment.month a + 1) 2 ++ "/" ++ zeroFill (Moment.date a) 2
     ++ "/" ++ zeroFill (Moment.year a) 4 ++ " " ++ zeroFill (hFormat a) 2
     ++ ":" ++ zeroFill (minutes a) 2 ++ ":" ++ zeroFill (seconds a) 2)
      %string
  else "Invalid date"%string.

End MomentFormat.

(** One row of the list: the React key, the two letters of the avatar, the
    link and its text, and the two renderings of the expiry.  Strings are
    kept as bytes, and the avatar is cut by bytes: for a name of ASCII
    characters that is the cut by UTF-16 code units of the source. *)
Record Row : Type := mkRow
  { key : nat;
    avatar : string;
    href : string;
    text : string;
    relative : string;
    absolute : string }.

(** The props handed to the infinite scroll and its children. *)
Record View : Type := mkView
  { dataLength : nat;
    hasMore : bool;
    rows : list Row }.

(** [!!pageInfo && pageInfo.hasNextPage] *)
Definition has_more (s : Store) : bool :=
  match pageInfo s with
  | Some p => Page.hasNextPage p
  | None => false
  end.

(** [array.map((item, index) => f(item, index))] *)
Fixpoint map_indexed {A B : Type} (f : A -> nat -> B) (index : nat)
  (l : list A) : list B :=
  match l with
  | [] => []
  | x :: rest => f x index :: map_indexed f (S index) rest
  end.

Definition render_row (moment : string -> Moment.t) (now : Moment.t)
  (domain : Domain.t) (index : nat) : Row :=
  {| key := index;
     avatar := substring 0 2 (Domain.name domain);
     href := ("https://app.tezos.domains/domain/" ++ Domain.name domain)
               %string;
     text := Domain.name domain;
     relative := expiredAt moment now (Domain.expires domain);
     absolute := MomentFormat.format (moment (Domain.expires domain)) |}.

(** The return statement of [DomainList].  Reading [domains.length] of
    [undefined] throws. *)
Definition render (moment : string -> Moment.t) (now : Moment.t)
  (s : Store) : Completion View :=
  match domains s with
  | Some ds =>
      Return
        {| dataLength := List.length ds;
           hasMore := has_more s;
           rows := map_indexed (render_row moment now) 0 ds |}
  | None =>
      Throw (TypeError
               "Cannot read properties of undefined (reading 'length')")
  end.

(** ** Sessions

    The component refreshes when it mounts and when the list is pulled down,
    and fetches the next page when the list is scrolled to its end.  Each
    occurrence of an event comes with the moment it happens at and with the
    way the client answers then.  A callback that throws leaves the store as
    it is at that point.  This follows the component as long as the list of
    domains is defined; once it is [undefined] the render throws and no
    further event reaches the component. *)
Inductive Event : Type := Refresh | Next.

Record Occurrence : Type := mkOccurrence
  { event : Event;
    answers : ApolloClient;
    at_ : Moment.t }.

Definition handle (o : Occurrence) : M unit :=
  match event o with
  | Refresh => refresh (answers o) (at_ o)
  | Next => fetchNext (answers o) (at_ o)
  end.

Fixpoint session (os : list Occurrence) (s : Store)
  : list (Completion unit) * Store :=
  match os with
  | [] => ([], s)
  | o :: rest =>
      let (c, s') := handle o s in
      let (cs, s'') := session rest s' in
      (c :: cs, s'')
  end.

(** The cursors named by the "loading...." lines of a console. *)
Definition logged_cursors (c : list ConsoleEntry) : list (option string) :=
  flat_map (fun e => match e with Log _ arg => [arg] | Err _ => [] end) c.

(** A client that never answers without data. *)
Definition always_settles (client : ApolloClient) : Prop :=
  forall variables, ~ without_data (client variables).

(** The pages a client serves from a cursor on, each naming the next. *)
Fixpoint serves (client : ApolloClient) (now : Moment.t)
  (after : option string) (pages : list Response.Data) : Prop :=
  match pages with
  | [] => True
  | page :: rest =>
      client (query_variables now after) = with_data page /\
      (rest <> [] ->
       Page.hasNextPage (Response.pageInfo (Response.domains page)) = true)
      /\
      serves client now
        (Some (Page.endCursor (Response.pageInfo (Response.domains page))))
        rest
  end.

Definition domains_of_page (page : Response.Data) : list Domain.t :=
  map domain_of_edge (Response.edges (Response.domains page)).

(** A client with three pages, for examples. *)
Definition example_page (names : list string) (endCursor : string)
  (more : bool) : Response.Data :=
  {| Response.domains :=
       {| Response.edges :=
            map (fun n =>
                   {| Response.node :=
                        Node.mk n n 2 "tz1" [] None "2022-05-04T10:00:00Z" |})
              names;
          Response.pageInfo := Page.mk "" endCursor more false |} |}.

Definition example_pages : list Response.Data :=
  [ example_page ["a.tez"%string; "b.tez"%string] "p1" true;
    example_page ["c.tez"%string] "p2" true;
    example_page ["d.tez"%string; "e.tez"%string] "p3" false ].

Definition client_paged : ApolloClient :=
  fun variables =>
    match Query.after variables with
    | None => with_data (nth 0 example_pages example_data)
    | Some c =>
        if String.eqb c "p1" then with_data (nth 1 example_pages example_data)
        else if String.eqb c "p2"
             then with_data (nth 2 example_pages example_data)
             else Rejected (ApolloError "Unknown cursor")
    end.

Definition client_empty : ApolloClient := fun _ => Fulfilled None.

Definition page_one : Page.t := Page.mk "" "p1" true false.

Definition store_paged : Store := mkStore (Some [carol]) (Some page_one) [] [].

(** ** Calendar arithmetic *)
Module MomentFacts.
Import Moment.

Lemma isLeapYear_cases (y : Z) :
  (isLeapYear y = true /\ daysBeforeYear (y + 1) = daysBeforeYear y + 366) \/
  (isLeapYear y = false /\ daysBeforeYear (y + 1) = daysBeforeYear y + 365).
Proof.
  unfold isLeapYear, daysBeforeYear.
  destruct (y mod 4 =? 0) eqn:E4; destruct (y mod 100 =? 0) eqn:E100;
    destruct (y mod 400 =? 0) eqn:E400; cbn [andb orb negb];
    rewrite ?Z.eqb_eq, ?Z.eqb_neq in *;
    [left|right|left|left|left|right|left|right]; split; try reflexivity;
    Z.to_euclidean_division_equations; lia.
Qed.

Lemma daysInMonth_bounds (y m : Z) : 28 <= daysInMonth y m <= 31.
Proof.
  unfold daysInMonth.
  destruct (m =? 1); [destruct (isLeapYear y); lia|].
  Z.to_euclidean_division_equations; lia.
Qed.

Lemma monthLength_bounds (i : Z) : 28 <= monthLength i <= 31.
Proof. apply daysInMonth_bounds. Qed.

Lemma daysBeforeMonth_succ (y m : Z) :
  0 <= m -> daysBeforeMonth y (m + 1) = daysBeforeMonth y m + daysInMonth y m.
Proof.
  intros Hm. unfold daysBeforeMonth.
  replace (Z.to_nat (m + 1)) with (S (Z.to_nat m)) by lia.
  simpl. rewrite Z2Nat.id by assumption. reflexivity.
Qed.

Lemma daysBeforeMonth_year (y : Z) :
  daysBeforeMonth y 12 = if isLeapYear y then 366 else 365.
Proof.
  unfold daysBeforeMonth. simpl. unfold daysInMonth. simpl.
  destruct (isLeapYear y); reflexivity.
Qed.

Lemma firstOfMonth_succ (i : Z) :
  firstOfMonth (i + 1) = firstOfMonth i + monthLength i.
Proof.
  unfold firstOfMonth, monthLength, dayNumber.
  assert (Hm : 0 <= i mod 12 < 12) by (apply Z.mod_pos_bound; lia).
  destruct (Z.eq_dec (i mod 12) 11) as [E|E].
  - assert (Hy : (i + 1) / 12 = i / 12 + 1)
      by (Z.to_euclidean_division_equations; lia).
    assert (Hn : (i + 1) mod 12 = 0)
      by (Z.to_euclidean_division_equations; lia).
    rewrite Hy, Hn, E.
    pose proof (daysBeforeMonth_succ (i / 12) 11 ltac:(lia)) as H12.
    simpl Z.add in H12. rewrite daysBeforeMonth_year in H12.
    change (daysBeforeMonth (i / 12 + 1) 0) with 0.
    destruct (isLeapYear_cases (i / 12)) as [[L Hs]|[L Hs]];
      rewrite L in H12; lia.
  - assert (Hy : (i + 1) / 12 = i / 12)
      by (Z.to_euclidean_division_equations; lia).
    assert (Hn : (i + 1) mod 12 = i mod 12 + 1)
      by (Z.to_euclidean_division_equations; lia).
    rewrite Hy, Hn, daysBeforeMonth_succ by lia. lia.
Qed.

Lemma firstOfMonth_pred (i : Z) :
  firstOfMonth i = firstOfMonth (i - 1) + monthLength (i - 1).
Proof.
  rewrite <- firstOfMonth_succ. f_equal. lia.
Qed.

(** Months are at least 28 days long, so month starts spread out. *)
Lemma firstOfMonth_spread (i k : Z) :
  0 <= k -> 28 * k <= firstOfMonth (i + k) - firstOfMonth i.
Proof.
  intros Hk. pattern k. apply natlike_ind; [| |assumption].
  - rewrite Z.add_0_r. lia.
  - intros x Hx IH.
    replace (i + Z.succ x) with (i + x + 1) by lia.
    rewrite firstOfMonth_succ.
    pose proof (monthLength_bounds (i + x)). lia.
Qed.

Lemma firstOfMonth_mono (i j : Z) :
  i <= j -> 28 * (j - i) <= firstOfMonth j - firstOfMonth i.
Proof.
  intros H. pose proof (firstOfMonth_spread i (j - i) ltac:(lia)) as S.
  replace (i + (j - i)) with j in S by lia. exact S.
Qed.


Lemma isValid_fields (a : t) :
  isValid a = true ->
  0 <= month a < 12 /\ 1 <= date a <= monthLength (monthIndex a) /\
  0 <= time a < msPerDay /\
  monthIndex a / 12 = year a /\ monthIndex a mod 12 = month a.
Proof.
  unfold isValid, monthLength, monthIndex. intros H.
  repeat (apply andb_prop in H; destruct H as [H ?]).
  rewrite ?Z.leb_le, ?Z.ltb_lt in *.
  assert (Hy : (year a * 12 + month a) / 12 = year a)
    by (Z.to_euclidean_division_equations; lia).
  assert (Hm : (year a * 12 + month a) mod 12 = month a)
    by (Z.to_euclidean_division_equations; lia).
  rewrite Hy, Hm. lia.
Qed.

Lemma valueOf_index (a : t) :
  isValid a = true ->
  valueOf a =
  (firstOfMonth (monthIndex a) + date a - 1) * msPerDay + time a.
Proof.
  intros H. destruct (isValid_fields a H) as (_ & _ & _ & Hy & Hm).
  unfold valueOf, firstOfMonth, dayNumber. rewrite Hy, Hm. lia.
Qed.

Lemma valueOf_add_months (a : t) (k : Z) :
  valueOf (add_months a k) =
  (firstOfMonth (monthIndex a + k)
   + Z.min (date a) (monthLength (monthIndex a + k)) - 1) * msPerDay
  + time a.
Proof.
  unfold valueOf, add_months, firstOfMonth, monthLength, monthIndex, dayNumber.
  cbn [year month date time]. lia.
Qed.

Lemma add_months_valid (a : t) (k : Z) :
  isValid a = true -> isValid (add_months a k) = true.
Proof.
  intros H. destruct (isValid_fields a H) as (_ & Hd & Ht & _).
  unfold isValid, add_months. cbn [year month date time].
  set (i := year a * 12 + month a + k).
  pose proof (Z.mod_pos_bound i 12 ltac:(lia)).
  pose proof (daysInMonth_bounds (i / 12) (i mod 12)).
  repeat (apply andb_true_intro; split);
    rewrite ?Z.leb_le, ?Z.ltb_lt; lia.
Qed.

Lemma startOfDay_valid (a : t) :
  isValid a = true -> isValid (startOfDay a) = true.
Proof.
  unfold isValid, startOfDay. cbn [year month date time]. intros H.
  repeat (apply andb_prop in H; destruct H as [H ?]).
  repeat (apply andb_true_intro; split); try assumption; reflexivity.
Qed.

Lemma prev_day_spec (a : t) :
  isValid a = true ->
  isValid (prev_day a) = true /\ valueOf (prev_day a) = valueOf a - msPerDay.
Proof.
  intros Va. destruct (isValid_fields a Va) as (Hm & Hd & Ht & Hy & Hi).
  pose proof Va as Vf. unfold isValid in Vf.
  repeat (apply andb_prop in Vf; destruct Vf as [Vf ?]).
  rewrite (valueOf_index a Va). unfold prev_day.
  destruct (Z.ltb_spec 1 (date a)) as [Hgt|Hle].
  - split.
    + unfold isValid. cbn [year month date time].
      repeat (apply andb_true_intro; split); try assumption;
        rewrite ?Z.leb_le in *; lia.
    + unfold valueOf, firstOfMonth, dayNumber, msPerDay.
      cbn [year month date time]. rewrite Hy, Hi. lia.
  - fold (monthIndex a).
    pose proof (firstOfMonth_pred (monthIndex a)) as Hp.
    pose proof (monthLength_bounds (monthIndex a - 1)) as Hb.
    pose proof (Z.mod_pos_bound (monthIndex a - 1) 12 ltac:(lia)).
    split.
    + unfold isValid. cbn [year month date time].
      fold (monthLength (monthIndex a - 1)).
      repeat (apply andb_true_intro; split); try assumption;
        rewrite ?Z.leb_le, ?Z.ltb_lt; lia.
    + unfold valueOf. cbn [year month date time].
      unfold firstOfMonth, monthLength, dayNumber, msPerDay in *. lia.
Qed.

Lemma subtract_days_spec (n : nat) (a : t) :
  isValid a = true ->
  isValid (subtract_days n a) = true /\
  valueOf (subtract_days n a) = valueOf a - Z.of_nat n * msPerDay.
Proof.
  intros Va. induction n as [|n [IHv IHe]].
  - split; [exact Va|]. cbn. lia.
  - change (subtract_days (S n) a) with (prev_day (subtract_days n a)).
    destruct (prev_day_spec _ IHv) as [Hv He].
    split; [exact Hv|]. rewrite He, IHe. unfold msPerDay. lia.
Qed.

(** *** Fractions of integers *)

Lemma Qfrac_lt_1 (n d : Z) : 0 < d -> n < d -> (inject_Z n / inject_Z d < 1)%Q.
Proof.
  intros Hd Hn. apply Qlt_shift_div_r.
  - change 0%Q with (inject_Z 0). rewrite <- Zlt_Qlt. assumption.
  - rewrite Qmult_1_l, <- Zlt_Qlt. assumption.
Qed.

Lemma Qfrac_gt_m1 (n d : Z) :
  0 < d -> - d < n -> (- (1) < inject_Z n / inject_Z d)%Q.
Proof.
  intros Hd Hn. apply Qlt_shift_div_l.
  - change 0%Q with (inject_Z 0). rewrite <- Zlt_Qlt. assumption.
  - setoid_replace (- (1) * inject_Z d)%Q with (inject_Z (- d))
      by (rewrite inject_Z_opp; ring).
    rewrite <- Zlt_Qlt. assumption.
Qed.

Lemma Qfrac_pos (n d : Z) : 0 < d -> 0 < n -> (0 < inject_Z n / inject_Z d)%Q.
Proof.
  intros Hd Hn. apply Qlt_shift_div_l.
  - change 0%Q with (inject_Z 0). rewrite <- Zlt_Qlt. assumption.
  - rewrite Qmult_0_l. change 0%Q with (inject_Z 0).
    rewrite <- Zlt_Qlt. assumption.
Qed.

Lemma Qfrac_neg (n d : Z) : 0 < d -> n < 0 -> (inject_Z n / inject_Z d < 0)%Q.
Proof.
  intros Hd Hn. apply Qlt_shift_div_r.
  - change 0%Q with (inject_Z 0). rewrite <- Zlt_Qlt. assumption.
  - rewrite Qmult_0_l. change 0%Q with (inject_Z 0).
    rewrite <- Zlt_Qlt. assumption.
Qed.

Lemma Qfrac_nonneg (n d : Z) :
  0 < d -> 0 <= n -> (0 <= inject_Z n / inject_Z d)%Q.
Proof.
  intros Hd Hn. apply Qle_shift_div_l.
  - change 0%Q with (inject_Z 0). rewrite <- Zlt_Qlt. assumption.
  - rewrite Qmult_0_l. change 0%Q with (inject_Z 0).
    rewrite <- Zle_Qle. assumption.
Qed.


(** *** A year of months *)

Lemma isLeapYear_not_twice (y : Z) :
  isLeapYear y = true -> isLeapYear (y + 1) = false.
Proof.
  unfold isLeapYear. intros H.
  apply orb_true_iff in H. apply orb_false_iff.
  rewrite andb_true_iff, negb_true_iff, !Z.eqb_eq, Z.eqb_neq in H.
  rewrite andb_false_iff, negb_false_iff, !Z.eqb_neq, Z.eqb_eq.
  split; [left|]; Z.to_euclidean_division_equations; lia.
Qed.

(** The calendar of a year depends only on whether it is a leap year. *)
Lemma daysInMonth_ext (y y' m : Z) :
  isLeapYear y = isLeapYear y' -> daysInMonth y m = daysInMonth y' m.
Proof. unfold daysInMonth. intros ->. reflexivity. Qed.

Lemma daysBeforeMonth_ext (y y' m : Z) :
  isLeapYear y = isLeapYear y' -> daysBeforeMonth y m = daysBeforeMonth y' m.
Proof.
  intros H. unfold daysBeforeMonth.
  induction (Z.to_nat m) as [|n IH]; [reflexivity|].
  cbn [daysBeforeMonth_aux]. rewrite IH, (daysInMonth_ext y y' _ H).
  reflexivity.
Qed.

Ltac calendar_of y y' :=
  match goal with
  | L : isLeapYear y = isLeapYear y' |- _ =>
      repeat match goal with
             | |- context [daysBeforeMonth y ?m] =>
                 rewrite (daysBeforeMonth_ext y y' m L);
                 let v := eval vm_compute in (daysBeforeMonth y' m) in
                 change (daysBeforeMonth y' m) with v
             | |- context [daysInMonth y ?m] =>
                 rewrite (daysInMonth_ext y y' m L);
                 let v := eval vm_compute in (daysInMonth y' m) in
                 change (daysInMonth y' m) with v
             end
  end.

(** Twelve months on: a year of 365 or 366 days; when the month reached is
    shorter (February after a leap February) the span is 366 days, when it
    is longer the span is 365 days, and the lengths differ by a day at
    most. *)
Lemma year_span (i : Z) :
  365 <= firstOfMonth (i + 12) - firstOfMonth i <= 366 /\
  (monthLength (i + 12) < monthLength i ->
   firstOfMonth (i + 12) - firstOfMonth i = 366) /\
  (monthLength i < monthLength (i + 12) ->
   firstOfMonth (i + 12) - firstOfMonth i = 365) /\
  -1 <= monthLength (i + 12) - monthLength i <= 1.
Proof.
  unfold firstOfMonth, monthLength, dayNumber.
  assert (Hy : (i + 12) / 12 = i / 12 + 1)
    by (Z.to_euclidean_division_equations; lia).
  assert (Hm : (i + 12) mod 12 = i mod 12)
    by (Z.to_euclidean_division_equations; lia).
  rewrite Hy, Hm. clear Hy Hm.
  pose proof (Z.mod_pos_bound i 12 ltac:(lia)) as Hb. revert Hb.
  generalize (i mod 12) (i / 12). clear i. intros m y Hb.
  pose proof (isLeapYear_not_twice y) as Hnot.
  assert (Hc : m = 0 \/ m = 1 \/ m = 2 \/ m = 3 \/ m = 4 \/ m = 5 \/
               m = 6 \/ m = 7 \/ m = 8 \/ m = 9 \/ m = 10 \/ m = 11)
    by lia.
  destruct (isLeapYear_cases y) as [[L Hs]|[L Hs]]; rewrite Hs; clear Hs;
    generalize (daysBeforeYear y); intros base;
    [ pose proof (Hnot L) as L1; change true with (isLeapYear 4) in L;
      change false with (isLeapYear 1) in L1
    | change false with (isLeapYear 1) in L;
      destruct (isLeapYear (y + 1)) eqn:L1;
      [ change true with (isLeapYear 4) in L1
      | change false with (isLeapYear 1) in L1 ] ];
    repeat (destruct Hc as [->|Hc]); try subst m;
    first [ calendar_of y 4 | calendar_of y 1 ];
    first [ calendar_of (y + 1) 4 | calendar_of (y + 1) 1 ];
    lia.
Qed.

(** *** Month differences *)

Ltac case_anchor H :=
  match goal with
  | |- context [?x <? 0] => destruct (Z.ltb_spec x 0) as [H|H]
  end.

Lemma wholeMonthDiff_index (a b : t) :
  (year b - year a) * 12 + (month b - month a) = monthIndex b - monthIndex a.
Proof. unfold monthIndex. lia. Qed.

(** [monthDiff_ordered a b] is the whole number of months between the two
    calendar months, corrected by a fraction of a month that has the sign
    of the distance from the anchor to [b]. *)
Lemma adjust_bounds (a b : t) :
  isValid a = true -> isValid b = true ->
  exists adjust : Q,
    (monthDiff_ordered a b ==
     - (inject_Z (monthIndex b - monthIndex a) + adjust))%Q /\
    (- (1) < adjust)%Q /\ (adjust < 1)%Q /\
    (valueOf b < valueOf (add_months a (monthIndex b - monthIndex a)) ->
     (adjust < 0)%Q) /\
    (valueOf (add_months a (monthIndex b - monthIndex a)) <= valueOf b ->
     (0 <= adjust)%Q) /\
    (valueOf (add_months a (monthIndex b - monthIndex a)) < valueOf b ->
     (0 < adjust)%Q).
Proof.
  intros Va Vb. unfold monthDiff_ordered.
  rewrite wholeMonthDiff_index, !valueOf_add_months.
  rewrite (valueOf_index b Vb).
  destruct (isValid_fields a Va) as (_ & Hda & Hta & _).
  destruct (isValid_fields b Vb) as (_ & Hdb & Htb & _).
  replace (monthIndex a + (monthIndex b - monthIndex a)) with (monthIndex b)
    by lia.
  replace (monthIndex a + (monthIndex b - monthIndex a - 1))
    with (monthIndex b - 1) by lia.
  replace (monthIndex a + (monthIndex b - monthIndex a + 1))
    with (monthIndex b + 1) by lia.
  unfold msPerDay in *.
  pose proof (monthLength_bounds (monthIndex b)).
  pose proof (monthLength_bounds (monthIndex b - 1)).
  pose proof (monthLength_bounds (monthIndex b + 1)).
  pose proof (firstOfMonth_succ (monthIndex b)).
  pose proof (firstOfMonth_pred (monthIndex b)).
  case_anchor Hn.
  - eexists. split; [reflexivity|].
    split; [apply Qfrac_gt_m1; lia|].
    assert (Hneg : forall d, 0 < d ->
              (inject_Z ((firstOfMonth (monthIndex b) + date b - 1) * 86400000
                         + time b
                         - ((firstOfMonth (monthIndex b)
                             + Z.min (date a) (monthLength (monthIndex b))
                             - 1) * 86400000 + time a))
               / inject_Z d < 0)%Q)
      by (intros d Hd; apply Qfrac_neg; lia).
    split; [apply Qlt_trans with 0%Q; [apply Hneg; lia|reflexivity]|].
    split; [intros _; apply Hneg; lia|].
    split; intros; exfalso; lia.
  - eexists. split; [reflexivity|].
    assert (Hpos : (0 <=
              inject_Z ((firstOfMonth (monthIndex b) + date b - 1) * 86400000
                        + time b
                        - ((firstOfMonth (monthIndex b)
                            + Z.min (date a) (monthLength (monthIndex b))
                            - 1) * 86400000 + time a))
              / inject_Z
                  ((firstOfMonth (monthIndex b + 1)
                    + Z.min (date a) (monthLength (monthIndex b + 1)) - 1)
                   * 86400000 + time a
                   - ((firstOfMonth (monthIndex b)
                       + Z.min (date a) (monthLength (monthIndex b)) - 1)
                      * 86400000 + time a)))%Q)
      by (apply Qfrac_nonneg; lia).
    split; [apply Qlt_le_trans with 0%Q; [reflexivity|exact Hpos]|].
    split; [apply Qfrac_lt_1; lia|].
    split; [intros; exfalso; lia|].
    split; [intros _; exact Hpos|].
    intros Hlt. apply Qfrac_pos; lia.
Qed.

Lemma Qle_inject_shift (k w : Z) (x : Q) :
  (- (1) < x)%Q -> (x < 1)%Q ->
  ((inject_Z k <= - (inject_Z w + x))%Q <->
   w < - k \/ (w = - k /\ (x <= 0)%Q)).
Proof.
  intros Hlo Hhi. split.
  - intros H.
    assert (Hw : (inject_Z w < inject_Z (- k + 1))%Q).
    { rewrite inject_Z_plus, inject_Z_opp. change (inject_Z 1) with 1%Q. lra. }
    rewrite <- Zlt_Qlt in Hw.
    destruct (Z.eq_dec w (- k)) as [E|E]; [right|left; lia].
    split; [exact E|]. subst w. rewrite inject_Z_opp in H. lra.
  - intros [Hw|[-> Hx]].
    + assert (Hq : (inject_Z w <= inject_Z (- k - 1))%Q)
        by (rewrite <- Zle_Qle; lia).
      unfold Z.sub in Hq. rewrite inject_Z_plus, !inject_Z_opp in Hq.
      change (inject_Z 1) with 1%Q in Hq. lra.
    + rewrite inject_Z_opp. lra.
Qed.

(** When [monthDiff a b] reaches [k] months, in terms of the calendar. *)
Lemma monthDiff_ge (k : Z) (a b : t) :
  isValid a = true -> isValid b = true ->
  ((inject_Z k <= monthDiff a b)%Q <-> atLeastMonths k a b).
Proof.
  intros Va Vb. unfold monthDiff, atLeastMonths.
  destruct (Z.ltb_spec (date a) (date b)) as [Hd|Hd].
  - destruct (adjust_bounds b a Vb Va)
      as (x & E & Hlo & Hhi & Hneg & Hnn & Hpos).
    rewrite E.
    assert (Hopp : (- - (inject_Z (monthIndex a - monthIndex b) + x) ==
                    - (inject_Z (- (monthIndex a - monthIndex b)) + - x))%Q)
      by (rewrite inject_Z_opp; ring).
    rewrite Hopp, Qle_inject_shift by lra.
    split.
    + intros [Hw|[Hw Hx]]; [left; lia|right].
      assert (Hk : monthIndex a - monthIndex b = k) by lia.
      split; [exact Hk|]. rewrite Hk in *.
      destruct (Z_lt_le_dec (valueOf a) (valueOf (add_months b k)))
        as [Hlt|Hle]; [|exact Hle].
      specialize (Hneg Hlt). lra.
    + intros [Hw|[Hw Hle]]; [left; lia|right].
      split; [lia|]. rewrite Hw in *. specialize (Hnn Hle). lra.
  - destruct (adjust_bounds a b Va Vb)
      as (x & E & Hlo & Hhi & Hneg & Hnn & Hpos).
    rewrite E, Qle_inject_shift by assumption.
    split.
    + intros [Hw|[Hw Hx]]; [left; exact Hw|right].
      split; [exact Hw|]. rewrite Hw in *.
      destruct (Z_lt_le_dec (valueOf (add_months a (- k))) (valueOf b))
        as [Hlt|Hle]; [|lia].
      specialize (Hpos Hlt). lra.
    + intros [Hw|[Hw Hle]]; [left; exact Hw|right].
      split; [exact Hw|]. rewrite Hw in *.
      destruct (Z_lt_le_dec (valueOf b) (valueOf (add_months a (- k))))
        as [Hlt|Hge].
      * specialize (Hneg Hlt). lra.
      * assert (Heq : valueOf (add_months a (- k)) <= valueOf b) by lia.
        assert (Hz : (0 <= x)%Q) by (apply Hnn; exact Heq).
        destruct (Z.eq_dec (valueOf b) (valueOf (add_months a (- k))))
          as [Ee|Ne]; [|exfalso; lia].
        (* at the anchor the fraction is zero *)
        clear - E Ee Va Vb Hz Hhi Hlo Hw.
        unfold monthDiff_ordered in E. rewrite wholeMonthDiff_index, Hw in E.
        assert (H0 : valueOf b - valueOf (add_months a (- k)) = 0) by lia.
        rewrite H0 in E. cbn [Z.ltb Z.compare] in E.
        assert (Hx : (x == 0)%Q).
        { unfold Qdiv in E. change (inject_Z 0) with 0%Q in E.
          rewrite Qmult_0_l in E. lra. }
        lra.
Qed.

(** *** Month differences and elapsed time *)

Lemma valueOf_forth (a : t) (k : Z) :
  valueOf (add_months a k) =
  (firstOfMonth (monthIndex a + k)
   + Z.min (date a) (monthLength (monthIndex a + k)) - 1) * 86400000
  + time a.
Proof. apply valueOf_add_months. Qed.

Lemma valueOf_back (a : t) (k : Z) :
  valueOf (add_months a (- k)) =
  (firstOfMonth (monthIndex a - k)
   + Z.min (date a) (monthLength (monthIndex a - k)) - 1) * 86400000
  + time a.
Proof.
  rewrite valueOf_add_months.
  replace (monthIndex a + - k) with (monthIndex a - k) by lia. reflexivity.
Qed.

(** The facts that place two valid moments on the calendar. *)
Ltac on_calendar a b Va Vb :=
  let Hda := fresh "Hda" in let Hta := fresh "Hta" in
  let Hdb := fresh "Hdb" in let Htb := fresh "Htb" in
  destruct (isValid_fields a Va) as (_ & Hda & Hta & _);
  destruct (isValid_fields b Vb) as (_ & Hdb & Htb & _);
  unfold age in *;
  rewrite ?valueOf_back, ?valueOf_forth in *;
  rewrite ?(valueOf_index a Va), ?(valueOf_index b Vb) in *;
  unfold msPerDay in *;
  pose proof (monthLength_bounds (monthIndex a));
  pose proof (monthLength_bounds (monthIndex b));
  pose proof (firstOfMonth_succ (monthIndex a));
  pose proof (firstOfMonth_succ (monthIndex b));
  destruct (Z_lt_le_dec (monthIndex b) (monthIndex a));
  [ pose proof (firstOfMonth_mono (monthIndex b + 1) (monthIndex a)
                  ltac:(lia))
  | pose proof (firstOfMonth_mono (monthIndex a) (monthIndex b)
                  ltac:(lia)) ].

(** A month takes at least 28 days and at most 31. *)
Lemma atLeastMonths_1_age (a b : t) :
  isValid a = true -> isValid b = true ->
  (atLeastMonths 1 a b -> 28 * msPerDay <= age a b) /\
  (31 * msPerDay <= age a b -> atLeastMonths 1 a b).
Proof.
  intros Va Vb. unfold atLeastMonths.
  pose proof (monthLength_bounds (monthIndex a - 1)).
  pose proof (monthLength_bounds (monthIndex b + 1)).
  pose proof (firstOfMonth_pred (monthIndex a)).
  destruct (Z.ltb_spec (date a) (date b)) as [Hd|Hd];
    on_calendar a b Va Vb; (split; [intros [Hw|[Hw Hv]]|intros Hage]);
    lia.
Qed.

(** Twelve months take at least 365 days and at most 366. *)
Lemma atLeastMonths_12_age (a b : t) :
  isValid a = true -> isValid b = true ->
  (atLeastMonths 12 a b -> 365 * msPerDay <= age a b) /\
  (366 * msPerDay <= age a b -> atLeastMonths 12 a b).
Proof.
  intros Va Vb. unfold atLeastMonths.
  pose proof (year_span (monthIndex b)) as (Yb & Yb1 & Yb2 & Yb3).
  pose proof (year_span (monthIndex a - 12)) as (Ya & Ya1 & Ya2 & Ya3).
  pose proof (year_span (monthIndex a - 11)) as (Yc & _).
  replace (monthIndex a - 12 + 12) with (monthIndex a) in * by lia.
  replace (monthIndex a - 11 + 12) with (monthIndex a + 1) in * by lia.
  pose proof (monthLength_bounds (monthIndex a - 12)).
  pose proof (monthLength_bounds (monthIndex b + 12)).
  destruct (Z.ltb_spec (date a) (date b)) as [Hd|Hd];
    on_calendar a b Va Vb; (split; [intros [Hw|[Hw Hv]]|intros Hage]);
    try lia.
  - pose proof (firstOfMonth_mono (monthIndex b + 1) (monthIndex a - 12)
                  ltac:(lia)).
    lia.
  - destruct (Z_lt_le_dec (monthIndex b) (monthIndex a - 11)) as [Hfar|Hnear].
    + destruct (Z.eq_dec (monthIndex b) (monthIndex a - 12)) as [E|E];
        [|left; lia].
      right. split; [lia|].
      replace (monthIndex a) with (monthIndex b + 12) in * by lia. lia.
    + pose proof (firstOfMonth_mono (monthIndex a - 11) (monthIndex b)
                    ltac:(lia)).
      lia.
  - pose proof (firstOfMonth_mono (monthIndex b + 1) (monthIndex a - 12)
                  ltac:(lia)).
    lia.
  - destruct (Z_lt_le_dec (monthIndex b) (monthIndex a - 11)) as [Hfar|Hnear].
    + destruct (Z.eq_dec (monthIndex b) (monthIndex a - 12)) as [E|E];
        [|left; lia].
      right. split; [lia|]. rewrite E in *. lia.
    + pose proof (firstOfMonth_mono (monthIndex a - 11) (monthIndex b)
                    ltac:(lia)).
      lia.
Qed.

(** A moment less than 28 days older than another is less than a month
    older; this covers every moment that is younger. *)
Lemma monthDiff_lt_1 (a b : t) :
  isValid a = true -> isValid b = true ->
  age a b < 28 * msPerDay ->
  (monthDiff a b < 1)%Q.
Proof.
  intros Va Vb Hlt. apply Qnot_le_lt. intros H.
  change 1%Q with (inject_Z 1) in H.
  apply (monthDiff_ge 1 a b Va Vb) in H.
  apply (atLeastMonths_1_age a b Va Vb) in H. lia.
Qed.

(** Going back [k] whole months is a difference of exactly [k] months. *)
(** Going back [k] whole months is a difference of exactly [k] months. *)
Lemma monthDiff_add_months (a : t) (k : Z) :
  isValid a = true -> 0 <= k ->
  (monthDiff a (add_months a (- k)) == inject_Z k)%Q.
Proof.
  intros Va Hk. unfold monthDiff.
  destruct (Z.ltb_spec (date a) (date (add_months a (- k)))) as [Hd|_].
  - exfalso. unfold add_months in Hd. cbn [date] in Hd. lia.
  - unfold monthDiff_ordered.
    pose proof (add_months_valid a (- k) Va) as Vb.
    rewrite wholeMonthDiff_index.
    destruct (isValid_fields _ Vb) as (_ & _ & _ & Hy & Hm).
    assert (Hi : monthIndex (add_months a (- k)) = monthIndex a - k).
    { unfold monthIndex, add_months. cbn [year month].
      Z.to_euclidean_division_equations; lia. }
    rewrite Hi.
    replace (monthIndex a - k - monthIndex a) with (- k) by lia.
    rewrite Z.sub_diag. cbn [Z.ltb Z.compare].
    rewrite inject_Z_opp. unfold Qdiv. change (inject_Z 0) with 0%Q. ring.
Qed.

(** *** Rounding towards zero *)

Lemma absFloor_lt_1 (x : Q) : (x < 1)%Q -> absFloor x <= 0.
Proof.
  intros Hx. unfold absFloor. destruct (Qle_bool 0 x) eqn:E.
  - pose proof (Qfloor_le x) as Hf.
    assert (H1 : (inject_Z (Qfloor x) < inject_Z 1)%Q)
      by (change (inject_Z 1) with 1%Q; lra).
    rewrite <- Zlt_Qlt in H1. lia.
  - assert (Hneg : (x <= 0)%Q).
    { destruct (Qlt_le_dec 0 x) as [H|H]; [|exact H].
      apply Qlt_le_weak, Qle_bool_iff in H. congruence. }
    pose proof (Qceiling_resp_le x 0 Hneg) as Hc.
    change 0%Q with (inject_Z 0) in Hc. rewrite Qceiling_Z in Hc. exact Hc.
Qed.

Lemma absFloor_ge_1 (x : Q) : 1 <= absFloor x <-> (1 <= x)%Q.
Proof.
  split.
  - intros H. apply Qnot_lt_le. intros Hx.
    pose proof (absFloor_lt_1 x Hx). lia.
  - intros Hx. unfold absFloor.
    assert (H0 : (0 <= x)%Q) by lra.
    apply Qle_bool_iff in H0. rewrite H0.
    pose proof (Qfloor_resp_le 1 x Hx) as Hf.
    change 1%Q with (inject_Z 1) in Hf. rewrite Qfloor_Z in Hf. exact Hf.
Qed.

Lemma absFloor_inject_Z (n : Z) : absFloor (inject_Z n) = n.
Proof.
  unfold absFloor. destruct (Qle_bool 0 (inject_Z n)).
  - apply Qfloor_Z.
  - apply Qceiling_Z.
Qed.

Lemma absFloor_comp (x y : Q) : (x == y)%Q -> absFloor x = absFloor y.
Proof.
  intros E. unfold absFloor.
  rewrite (Qfloor_comp x y E), (Qceiling_comp x y E).
  destruct (Qle_bool 0 x) eqn:Hx; destruct (Qle_bool 0 y) eqn:Hy;
    try reflexivity; exfalso.
  - apply Qle_bool_iff in Hx. rewrite E in Hx. apply Qle_bool_iff in Hx.
    congruence.
  - apply Qle_bool_iff in Hy. rewrite <- E in Hy. apply Qle_bool_iff in Hy.
    congruence.
Qed.

(** On a fraction of integers, [absFloor] is the truncating division. *)
Lemma absFloor_quot (n d : Z) :
  0 < d -> absFloor (inject_Z n / inject_Z d) = Z.quot n d.
Proof.
  intros Hd. unfold absFloor.
  destruct (Qle_bool 0 (inject_Z n / inject_Z d)) eqn:E.
  - rewrite <- Zdiv_Qdiv.
    assert (Hn : 0 <= n).
    { apply Qle_bool_iff in E.
      destruct (Z_lt_le_dec n 0) as [Hlt|Hle]; [|exact Hle].
      pose proof (Qfrac_neg n d Hd Hlt). lra. }
    symmetry. apply Z.quot_div_nonneg; lia.
  - assert (Hn : n < 0).
    { destruct (Z_lt_le_dec n 0) as [Hlt|Hle]; [exact Hlt|].
      pose proof (Qfrac_nonneg n d Hd Hle) as Hq.
      apply Qle_bool_iff in Hq. congruence. }
    unfold Qceiling.
    assert (Ho : (- (inject_Z n / inject_Z d) ==
                  inject_Z (- n) / inject_Z d)%Q).
    { rewrite inject_Z_opp. unfold Qdiv. ring. }
    rewrite Ho, <- Zdiv_Qdiv.
    rewrite <- (Z.quot_div_nonneg (- n) d) by lia.
    rewrite Z.quot_opp_l by lia. lia.
Qed.

End MomentFacts.

(** ** The fetch-and-map routine *)

Section Fetching.

Variable client : ApolloClient.
Variable now : Moment.t.

(** A query answered with data: the edges are mapped, the cursor state is
    replaced. *)
Lemma fetchData_with_data (after : option string) (s : Store)
  (data : Response.Data) :
  client (query_variables now after) = with_data data ->
  fetchData client now after s =
  (Return (Some (map domain_of_edge
                   (Response.edges (Response.domains data)))),
   mkStore (domains s)
     (Some (Response.pageInfo (Response.domains data)))
     (console s ++ [Log "loading...." after])
     (requests s ++ [query_variables now after])).
Proof.
  intros H. unfold query_variables in H.
  unfold fetchData, catch, bind, getDomains, client_query, console_log.
  cbv beta zeta. cbn [domains pageInfo console requests].
  rewrite H. reflexivity.
Qed.

(** A query answered without data: nothing is mapped, [undefined] is
    returned. *)
Lemma fetchData_without_data (after : option string) (s : Store) :
  without_data (client (query_variables now after)) ->
  fetchData client now after s =
  (Return None,
   mkStore (domains s) (pageInfo s)
     (console s ++ [Log "loading...." after])
     (requests s ++ [query_variables now after])).
Proof.
  intros [H|H]; unfold query_variables in H;
    unfold fetchData, catch, bind, getDomains, client_query, console_log;
    cbv beta zeta; cbn [domains pageInfo console requests];
    rewrite H; reflexivity.
Qed.

(** A rejected query: the error is logged, the empty array is returned. *)
Lemma fetchData_rejected (after : option string) (s : Store) (e : Error) :
  client (query_variables now after) = Rejected e ->
  fetchData client now after s =
  (Return (Some []),
   mkStore (domains s) (pageInfo s)
     (console s ++ [Log "loading...." after] ++ [Err e])
     (requests s ++ [query_variables now after])).
Proof.
  intros H. unfold query_variables in H.
  unfold fetchData, catch, bind, getDomains, client_query, console_log.
  cbv beta zeta. cbn [domains pageInfo console requests].
  rewrite H. unfold console_error, ret.
  cbn [domains pageInfo console requests].
  rewrite <- app_assoc. reflexivity.
Qed.

(** Every settlement is one of the three above. *)
Lemma settled_cases (r : Settled (option Response.ApolloQueryResult)) :
  (exists data, r = with_data data) \/ without_data r \/
  (exists e, r = Rejected e).
Proof.
  destruct r as [[[[data|]]|]|e]; unfold with_data, without_data; eauto.
Qed.

(** [fetchData] never throws, sends exactly one query, and leaves the list
    of domains alone. *)
Lemma fetchData_returns (after : option string) (s : Store) :
  exists items s',
    fetchData client now after s = (Return items, s') /\
    domains s' = domains s /\
    requests s' = requests s ++ [query_variables now after].
Proof.
  destruct (settled_cases (client (query_variables now after)))
    as [[data H]|[H|[e H]]].
  - rewrite (fetchData_with_data _ _ _ H). eauto.
  - rewrite (fetchData_without_data _ _ H). eauto.
  - rewrite (fetchData_rejected _ _ _ H). eauto.
Qed.

Lemma refresh_unfold (s : Store) (items : option (list Domain.t))
  (s' : Store) :
  fetchData client now None s = (Return items, s') ->
  refresh client now s =
  (Return tt, mkStore items (pageInfo s') (console s') (requests s')).
Proof.
  intros H. unfold refresh, bind. rewrite H. reflexivity.
Qed.

Lemma fetchNext_idle (s : Store) :
  (pageInfo s = None \/
   exists p, pageInfo s = Some p /\ Page.hasNextPage p = false) ->
  fetchNext client now s = (Return tt, s).
Proof.
  intros [H|[p [H Hp]]]; unfold fetchNext, bind, get_pageInfo, get_domains;
    rewrite H; [|rewrite Hp]; reflexivity.
Qed.

Lemma fetchNext_unfold (s : Store) (p : Page.t)
  (items : option (list Domain.t)) (s' : Store) :
  pageInfo s = Some p -> Page.hasNextPage p = true ->
  fetchData client now (Some (Page.endCursor p)) s = (Return items, s') ->
  fetchNext client now s =
  match domains s, items with
  | Some head, Some tail =>
      (Return tt,
       mkStore (Some (head ++ tail)) (pageInfo s') (console s') (requests s'))
  | _, _ => (Throw (TypeError "undefined is not iterable"), s')
  end.
Proof.
  intros H Hp Hf. unfold fetchNext, bind, get_pageInfo, get_domains.
  rewrite H, Hp, Hf. destruct (domains s), items; reflexivity.
Qed.

End Fetching.

(** ** Pagination *)

(** C1. When the cursor state is absent or says there is no next page,
    [fetchNext] changes nothing.  When it says there is a next page, the
    entries fetched are appended to the existing list: the existing list is a
    prefix of the new one.  A result without data gives no entries; the
    spread of [undefined] then throws before the list is written. *)
Theorem fetchNext_no_op_or_append (client : ApolloClient) (now : Moment.t)
  (s : Store) :
  ((pageInfo s = None \/
    exists p, pageInfo s = Some p /\ Page.hasNextPage p = false) ->
   fetchNext client now s = (Return tt, s)) /\
  (forall p existing,
     pageInfo s = Some p -> Page.hasNextPage p = true ->
     domains s = Some existing ->
     exists items s',
       fetchData client now (Some (Page.endCursor p)) s = (Return items, s') /\
       match items with
       | Some fetched =>
           fetchNext client now s =
           (Return tt,
            mkStore (Some (existing ++ fetched)) (pageInfo s') (console s')
              (requests s'))
       | None =>
           fetchNext client now s =
           (Throw (TypeError "undefined is not iterable"), s') /\
           domains s' = Some existing
       end /\
       exists appended,
         domains (snd (fetchNext client now s)) = Some (existing ++ appended)).
Proof.
  split; [apply fetchNext_idle|].
  intros p existing Hp Hnext Hd.
  destruct (fetchData_returns client now (Some (Page.endCursor p)) s)
    as (items & s' & Hf & Hd' & _).
  exists items, s'. split; [exact Hf|].
  rewrite (fetchNext_unfold client now s p items s' Hp Hnext Hf), Hd.
  destruct items as [fetched|]; cbn [snd domains].
  - split; [reflexivity|]. exists fetched. reflexivity.
  - split; [split; [reflexivity|congruence]|].
    exists []. rewrite app_nil_r. congruence.
Qed.

Lemma fetchNext_no_op_or_append_witness :
  fetchNext client_ok example_now store_done = (Return tt, store_done) /\
  exists appended,
    domains (snd (fetchNext client_ok example_now store_loaded)) =
    Some ([carol] ++ appended).
Proof.
  split.
  - apply (proj1 (fetchNext_no_op_or_append client_ok example_now store_done)).
    right. exists page_last. split; reflexivity.
  - destruct (proj2 (fetchNext_no_op_or_append client_ok example_now
                       store_loaded) page_more [carol]
                eq_refl eq_refl eq_refl)
      as (items & s' & _ & _ & H).
    exact H.
Defined.

(** ** Mapping a response *)

(** C2. When the query is answered with data, [fetchData] returns a list as
    long as the list of edges whose entry at each position carries the name
    and the expiry of the node of the edge at that position. *)
Theorem fetchData_maps_edges (client : ApolloClient) (now : Moment.t)
  (after : option string) (s : Store) (data : Response.Data) :
  client (query_variables now after) = with_data data ->
  exists mapped,
    fst (fetchData client now after s) = Return (Some mapped) /\
    List.length mapped =
    List.length (Response.edges (Response.domains data)) /\
    forall n,
      nth_error mapped n =
      option_map
        (fun i =>
           Domain.mk (Node.name (Response.node i))
             (Node.expires (Response.node i)))
        (nth_error (Response.edges (Response.domains data)) n).
Proof.
  intros H. exists (map domain_of_edge (Response.edges (Response.domains data))).
  rewrite (fetchData_with_data client now after s data H).
  split; [reflexivity|]. split.
  - apply length_map.
  - intros n. apply nth_error_map.
Qed.

Lemma fetchData_maps_edges_witness :
  exists mapped,
    fst (fetchData client_ok example_now None store_initial) =
    Return (Some mapped) /\
    List.length mapped = 2%nat /\
    forall n,
      nth_error mapped n =
      option_map
        (fun i =>
           Domain.mk (Node.name (Response.node i))
             (Node.expires (Response.node i)))
        (nth_error example_edges n).
Proof.
  exact (fetchData_maps_edges client_ok example_now None store_initial
           example_data eq_refl).
Defined.

(** ** Failing queries *)

(** C3, as the code has it.  When the query is rejected, [fetchData] catches
    the error, logs it, and returns the empty array without throwing.  A
    [refresh] then leaves the list of domains empty; a [fetchNext] appends
    nothing and leaves the list as it was. *)
Theorem failed_query_is_zero_results (client : ApolloClient)
  (now : Moment.t) (after : option string) (s : Store) (e : Error) :
  client (query_variables now after) = Rejected e ->
  fetchData client now after s =
  (Return (Some []),
   mkStore (domains s) (pageInfo s)
     (console s ++ [Log "loading...." after; Err e])
     (requests s ++ [query_variables now after])) /\
  (after = None ->
   fst (refresh client now s) = Return tt /\
   domains (snd (refresh client now s)) = Some []) /\
  (forall p existing,
     after = Some (Page.endCursor p) ->
     pageInfo s = Some p -> Page.hasNextPage p = true ->
     domains s = Some existing ->
     fst (fetchNext client now s) = Return tt /\
     domains (snd (fetchNext client now s)) = Some existing).
Proof.
  intros H. pose proof (fetchData_rejected client now after s e H) as Hf.
  split; [exact Hf|]. split.
  - intros ->. rewrite (refresh_unfold client now s _ _ Hf).
    split; reflexivity.
  - intros p existing -> Hp Hnext Hd.
    rewrite (fetchNext_unfold client now s p _ _ Hp Hnext Hf), Hd.
    cbn [fst snd domains]. rewrite app_nil_r. split; reflexivity.
Qed.

Lemma failed_query_is_zero_results_witness :
  fst (refresh client_down example_now store_loaded) = Return tt /\
  domains (snd (refresh client_down example_now store_loaded)) = Some [].
Proof.
  exact (proj1 (proj2 (failed_query_is_zero_results client_down example_now
                         None store_loaded (ApolloError "Network error")
                         eq_refl)) eq_refl).
Defined.

(** C3 as stated fails for the queries [fetchNext] issues: after a rejected
    query the list still holds what it held before. *)
Lemma failed_fetchNext_keeps_domains :
  client_down (query_variables example_now (Some "c1"%string)) =
  Rejected (ApolloError "Network error") /\
  fetchNext client_down example_now store_loaded =
  (Return tt,
   mkStore (Some [carol]) (Some page_more)
     [Log "loading...." (Some "c1"%string); Err (ApolloError "Network error")]
     [query_variables example_now (Some "c1"%string)]) /\
  domains (snd (fetchNext client_down example_now store_loaded)) <> Some [].
Proof.
  split; [reflexivity|]. split; [reflexivity|].
  cbn. discriminate.
Qed.

(** C8. A rejected query leaves the cursor state as it was, in [fetchData]
    and so in [refresh] and [fetchNext]. *)
Theorem failed_query_keeps_pageInfo (client : ApolloClient)
  (now : Moment.t) (after : option string) (s : Store) (e : Error) :
  client (query_variables now after) = Rejected e ->
  pageInfo (snd (fetchData client now after s)) = pageInfo s /\
  (after = None -> pageInfo (snd (refresh client now s)) = pageInfo s) /\
  (forall p,
     pageInfo s = Some p -> after = Some (Page.endCursor p) ->
     pageInfo (snd (fetchNext client now s)) = pageInfo s).
Proof.
  intros H. pose proof (fetchData_rejected client now after s e H) as Hf.
  split; [rewrite Hf; reflexivity|]. split.
  - intros ->. rewrite (refresh_unfold client now s _ _ Hf). reflexivity.
  - intros p Hp ->. destruct (Page.hasNextPage p) eqn:Hnext.
    + rewrite (fetchNext_unfold client now s p _ _ Hp Hnext Hf).
      destruct (domains s); reflexivity.
    + rewrite fetchNext_idle; [reflexivity|]. right. eauto.
Qed.

Lemma failed_query_keeps_pageInfo_witness :
  pageInfo (snd (fetchData client_down example_now (Some "c1"%string) store_loaded))
  = Some page_more /\
  pageInfo (snd (fetchNext client_down example_now store_loaded))
  = Some page_more.
Proof.
  pose proof (failed_query_keeps_pageInfo client_down example_now (Some "c1"%string)
                store_loaded (ApolloError "Network error") eq_refl)
    as (H1 & _ & H3).
  split; [exact H1|]. exact (H3 page_more eq_refl eq_refl).
Defined.

(** ** Cursor state *)

(** C7 as stated fails on a rejected query: the whole of the old cursor
    state survives the fetch. *)
Lemma failed_fetch_keeps_old_cursor :
  pageInfo store_loaded = Some page_more /\
  client_down (query_variables example_now None) =
  Rejected (ApolloError "Network error") /\
  pageInfo (snd (fetchData client_down example_now None store_loaded)) =
  Some page_more /\
  pageInfo (snd (refresh client_down example_now store_loaded)) =
  Some page_more.
Proof. repeat split. Qed.

(** C7, as the code has it.  A fetch that is answered with data replaces the
    cursor state by the [pageInfo] of the response, whatever it was before.
    A fetch that is rejected or answered without data leaves the cursor
    state as it was.  Of the cursor state, [fetchNext] reads [hasNextPage]
    and [endCursor] and nothing else, and [refresh] reads nothing, whatever
    the client answers. *)
Theorem pageInfo_replaced_on_data (client : ApolloClient) (now : Moment.t)
  (after : option string) (ds : option (list Domain.t))
  (c : list ConsoleEntry) (r : list Query.Variables) :
  (forall data,
     client (query_variables now after) = with_data data ->
     (forall old,
        pageInfo (snd (fetchData client now after (mkStore ds old c r))) =
        Some (Response.pageInfo (Response.domains data))) /\
     (forall old,
        after = None ->
        pageInfo (snd (refresh client now (mkStore ds old c r))) =
        Some (Response.pageInfo (Response.domains data))) /\
     (forall old,
        Page.hasNextPage old = true -> after = Some (Page.endCursor old) ->
        pageInfo (snd (fetchNext client now (mkStore ds (Some old) c r))) =
        Some (Response.pageInfo (Response.domains data)))) /\
  (without_data (client (query_variables now after)) \/
   (exists e, client (query_variables now after) = Rejected e) ->
   (forall old,
      pageInfo (snd (fetchData client now after (mkStore ds old c r))) = old)
   /\
   (forall old,
      after = None ->
      pageInfo (snd (refresh client now (mkStore ds old c r))) = old) /\
   (forall old,
      after = Some (Page.endCursor old) ->
      pageInfo (snd (fetchNext client now (mkStore ds (Some old) c r))) =
      Some old)) /\
  (forall p1 p2,
     Page.hasNextPage p1 = Page.hasNextPage p2 ->
     Page.endCursor p1 = Page.endCursor p2 ->
     let r1 := fetchNext client now (mkStore ds (Some p1) c r) in
     let r2 := fetchNext client now (mkStore ds (Some p2) c r) in
     fst r1 = fst r2 /\ domains (snd r1) = domains (snd r2) /\
     console (snd r1) = console (snd r2) /\
     requests (snd r1) = requests (snd r2)) /\
  (forall old1 old2,
     let r1 := refresh client now (mkStore ds old1 c r) in
     let r2 := refresh client now (mkStore ds old2 c r) in
     fst r1 = fst r2 /\ domains (snd r1) = domains (snd r2) /\
     console (snd r1) = console (snd r2) /\
     requests (snd r1) = requests (snd r2)).
Proof.
  split; [|split; [|split]].
  - intros data H. split; [|split].
    + intros old. rewrite (fetchData_with_data client now after _ data H).
      reflexivity.
    + intros old ->.
      rewrite (refresh_unfold client now _ _ _
                 (fetchData_with_data client now None _ data H)).
      reflexivity.
    + intros old Hnext ->.
      rewrite (fetchNext_unfold client now (mkStore ds (Some old) c r) old
                 _ _ eq_refl Hnext
                 (fetchData_with_data client now _ _ data H)).
      cbn [domains]. destruct ds; reflexivity.
  - intros H.
    assert (Hkeep : forall s,
              pageInfo (snd (fetchData client now after s)) = pageInfo s /\
              exists items s',
                fetchData client now after s = (Return items, s') /\
                pageInfo s' = pageInfo s).
    { intros s. destruct H as [H|[e H]].
      - rewrite (fetchData_without_data client now after s H).
        split; [reflexivity|]. eexists _, _. split; reflexivity.
      - rewrite (fetchData_rejected client now after s e H).
        split; [reflexivity|]. eexists _, _. split; reflexivity. }
    split; [|split].
    + intros old. exact (proj1 (Hkeep (mkStore ds old c r))).
    + intros old ->.
      destruct (Hkeep (mkStore ds old c r)) as (_ & items & s' & Hf & Hp).
      rewrite (refresh_unfold client now _ items s' Hf). exact Hp.
    + intros old ->.
      destruct (Page.hasNextPage old) eqn:Hnext.
      * destruct (Hkeep (mkStore ds (Some old) c r))
          as (_ & items & s' & Hf & Hp).
        rewrite (fetchNext_unfold client now (mkStore ds (Some old) c r) old
                   items s' eq_refl Hnext Hf).
        cbn [domains]. destruct ds, items; exact Hp.
      * rewrite (fetchNext_idle client now (mkStore ds (Some old) c r))
          by (right; exists old; split; [reflexivity|exact Hnext]).
        reflexivity.
  - intros p1 p2 Hn He r1 r2. subst r1 r2.
    destruct (Page.hasNextPage p1) eqn:Hn1.
    + symmetry in Hn.
      destruct (settled_cases
                  (client (query_variables now (Some (Page.endCursor p1)))))
        as [[d Hc]|[Hc|[e Hc]]].
      * rewrite (fetchNext_unfold client now (mkStore ds (Some p1) c r) p1 _ _
                   eq_refl Hn1
                   (fetchData_with_data client now _ _ d Hc)).
        rewrite He in Hc.
        rewrite (fetchNext_unfold client now (mkStore ds (Some p2) c r) p2 _ _
                   eq_refl Hn
                   (fetchData_with_data client now _ _ d Hc)).
        rewrite He. cbn [domains]. destruct ds; repeat split.
      * rewrite (fetchNext_unfold client now (mkStore ds (Some p1) c r) p1 _ _
                   eq_refl Hn1
                   (fetchData_without_data client now _ _ Hc)).
        rewrite He in Hc.
        rewrite (fetchNext_unfold client now (mkStore ds (Some p2) c r) p2 _ _
                   eq_refl Hn
                   (fetchData_without_data client now _ _ Hc)).
        rewrite He. cbn [domains]. destruct ds; repeat split.
      * rewrite (fetchNext_unfold client now (mkStore ds (Some p1) c r) p1 _ _
                   eq_refl Hn1
                   (fetchData_rejected client now _ _ e Hc)).
        rewrite He in Hc.
        rewrite (fetchNext_unfold client now (mkStore ds (Some p2) c r) p2 _ _
                   eq_refl Hn
                   (fetchData_rejected client now _ _ e Hc)).
        rewrite He. cbn [domains]. destruct ds; repeat split.
    + symmetry in Hn.
      rewrite (fetchNext_idle client now (mkStore ds (Some p1) c r))
        by (right; exists p1; split; [reflexivity|exact Hn1]).
      rewrite (fetchNext_idle client now (mkStore ds (Some p2) c r))
        by (right; exists p2; split; [reflexivity|exact Hn]).
      repeat split.
  - intros old1 old2 r1 r2. subst r1 r2.
    destruct (settled_cases (client (query_variables now None)))
      as [[d Hc]|[Hc|[e Hc]]].
    + rewrite !(refresh_unfold client now _ _ _
                  (fetchData_with_data client now None _ d Hc)).
      repeat split.
    + rewrite !(refresh_unfold client now _ _ _
                  (fetchData_without_data client now None _ Hc)).
      repeat split.
    + rewrite !(refresh_unfold client now _ _ _
                  (fetchData_rejected client now None _ e Hc)).
      repeat split.
Qed.

Lemma pageInfo_replaced_on_data_witness :
  pageInfo (snd (fetchData client_ok example_now None store_done)) =
  Some page_more /\
  pageInfo (snd (refresh client_down example_now store_done)) =
  Some page_last /\
  pageInfo (snd (fetchNext client_empty example_now store_loaded)) =
  Some page_more.
Proof.
  split; [|split].
  - exact (proj1 (proj1 (pageInfo_replaced_on_data client_ok example_now None
                           (Some [carol]) [] [])
                    example_data eq_refl)
             (Some page_last)).
  - exact (proj1 (proj2 (proj1 (proj2
             (pageInfo_replaced_on_data client_down example_now None
                (Some [carol]) [] []))
             (or_intror (ex_intro _ (ApolloError "Network error") eq_refl))))
             (Some page_last) eq_refl).
  - exact (proj2 (proj2 (proj1 (proj2
             (pageInfo_replaced_on_data client_empty example_now
                (Some "c1"%string) (Some [carol]) [] []))
             (or_introl (or_introl eq_refl))))
             page_more eq_refl).
Defined.

(** ** The query *)

(** C5. Every query [fetchData] sends through [getDomains] asks for the
    expired domains of level 2 whose expiry lies after midnight seven days
    before today and before midnight five days before today, latest expiry
    first, fifty at a time, after the cursor it was given: none on a
    refresh, the end cursor of the page before on a [fetchNext]. *)
Theorem getDomains_parameters (client : ApolloClient) (now : Moment.t)
  (after : option string) (s : Store) :
  let today := Moment.startOfDay now in
  let sent :=
    {| Query.after := after;
       Query.first := 50;
       Query.where_ :=
         {| Query.validity := "EXPIRED";
            Query.level := {| Query.equalTo := 2 |};
            Query.expiresAtUtc :=
              {| Query.greaterThan := Moment.subtract_days 7 today;
                 Query.lessThan := Moment.subtract_days 5 today |} |};
       Query.order :=
         {| Query.field := "EXPIRES_AT"; Query.direction := "DESC" |} |} in
  requests (snd (fetchData client now after s)) = requests s ++ [sent] /\
  (after = None ->
   requests (snd (refresh client now s)) = requests s ++ [sent]) /\
  (forall p,
     pageInfo s = Some p -> Page.hasNextPage p = true ->
     after = Some (Page.endCursor p) ->
     requests (snd (fetchNext client now s)) = requests s ++ [sent]) /\
  (Moment.isValid now = true ->
   Moment.valueOf (Moment.subtract_days 7 today) =
   Moment.valueOf today - 7 * Moment.msPerDay /\
   Moment.valueOf (Moment.subtract_days 5 today) =
   Moment.valueOf today - 5 * Moment.msPerDay /\
   Moment.valueOf today = Moment.valueOf now - Moment.time now).
Proof.
  intros today sent.
  change sent with (query_variables now after).
  destruct (fetchData_returns client now after s)
    as (items & s' & Hf & Hd & Hr).
  split; [rewrite Hf; exact Hr|]. split; [|split].
  - intros ->. rewrite (refresh_unfold client now s _ _ Hf). exact Hr.
  - intros p Hp Hnext ->.
    rewrite (fetchNext_unfold client now s p _ _ Hp Hnext Hf).
    destruct (domains s), items; exact Hr.
  - intros Vn. pose proof (MomentFacts.startOfDay_valid now Vn) as Vt.
    destruct (MomentFacts.subtract_days_spec 7 today Vt) as [_ H7].
    destruct (MomentFacts.subtract_days_spec 5 today Vt) as [_ H5].
    split; [exact H7|]. split; [exact H5|].
    unfold Moment.valueOf, today, Moment.startOfDay.
    cbn [Moment.year Moment.month Moment.date Moment.time]. lia.
Qed.

Lemma getDomains_parameters_witness :
  requests (snd (fetchNext client_ok example_now store_loaded)) =
  [ {| Query.after := Some "c1"%string;
       Query.first := 50;
       Query.where_ :=
         {| Query.validity := "EXPIRED";
            Query.level := {| Query.equalTo := 2 |};
            Query.expiresAtUtc :=
              {| Query.greaterThan := parse_iso "2022-05-03T00:00:00Z";
                 Query.lessThan := parse_iso "2022-05-05T00:00:00Z" |} |};
       Query.order :=
         {| Query.field := "EXPIRES_AT"; Query.direction := "DESC" |} |} ].
Proof.
  exact (proj1 (proj2 (proj2 (getDomains_parameters client_ok example_now
                                (Some "c1"%string) store_loaded)))
           page_more eq_refl eq_refl eq_refl).
Defined.

(** ** Refreshing *)

(** C10. [refresh] sends a query without cursor and stores what the fetch
    returns as the list of domains, whatever the list was before.  When the
    client answers the second query as it answered the first, a second
    [refresh] leaves the list and the cursor state as the first left them. *)
Theorem refresh_replaces_and_is_idempotent (client : ApolloClient)
  (now : Moment.t) (s : Store) :
  (exists items s',
     fetchData client now None s = (Return items, s') /\
     refresh client now s =
     (Return tt, mkStore items (pageInfo s') (console s') (requests s')) /\
     requests s' = requests s ++ [query_variables now None] /\
     Query.after (query_variables now None) = None) /\
  (forall previous,
     refresh client now
       (mkStore previous (pageInfo s) (console s) (requests s)) =
     refresh client now s) /\
  (forall later,
     client (query_variables later None) = client (query_variables now None) ->
     let once := snd (refresh client now s) in
     let twice := snd (refresh client later once) in
     domains twice = domains once /\ pageInfo twice = pageInfo once).
Proof.
  split; [|split].
  - destruct (fetchData_returns client now None s)
      as (items & s' & Hf & _ & Hr).
    exists items, s'. split; [exact Hf|]. split; [|split].
    + exact (refresh_unfold client now s items s' Hf).
    + exact Hr.
    + reflexivity.
  - intros previous.
    destruct (settled_cases (client (query_variables now None)))
      as [[d Hc]|[Hc|[e Hc]]].
    + rewrite !(refresh_unfold client now _ _ _
                  (fetchData_with_data client now None _ d Hc)).
      reflexivity.
    + rewrite !(refresh_unfold client now _ _ _
                  (fetchData_without_data client now None _ Hc)).
      reflexivity.
    + rewrite !(refresh_unfold client now _ _ _
                  (fetchData_rejected client now None _ e Hc)).
      reflexivity.
  - intros later Hsame once twice. subst once twice.
    destruct (settled_cases (client (query_variables now None)))
      as [[d Hc]|[Hc|[e Hc]]]; pose proof Hc as Hl; rewrite <- Hsame in Hl.
    + rewrite (refresh_unfold client now s _ _
                 (fetchData_with_data client now None s d Hc)).
      cbn [snd].
      rewrite (refresh_unfold client later _ _ _
                 (fetchData_with_data client later None _ d Hl)).
      split; reflexivity.
    + rewrite (refresh_unfold client now s _ _
                 (fetchData_without_data client now None s Hc)).
      cbn [snd].
      rewrite (refresh_unfold client later _ _ _
                 (fetchData_without_data client later None _ Hl)).
      split; reflexivity.
    + rewrite (refresh_unfold client now s _ _
                 (fetchData_rejected client now None s e Hc)).
      cbn [snd].
      rewrite (refresh_unfold client later _ _ _
                 (fetchData_rejected client later None _ e Hl)).
      split; reflexivity.
Qed.

Lemma refresh_replaces_and_is_idempotent_witness :
  let once := snd (refresh client_ok example_now store_loaded) in
  let twice :=
    snd (refresh client_ok (parse_iso "2022-05-11T07:00:00Z") once) in
  domains twice = domains once /\ pageInfo twice = pageInfo once.
Proof.
  exact (proj2 (proj2 (refresh_replaces_and_is_idempotent client_ok
                         example_now store_loaded))
           (parse_iso "2022-05-11T07:00:00Z") eq_refl).
Defined.

(** ** Counting elapsed units *)

Section Counting.

Import Moment MomentFacts.

Variables a b : Moment.t.

Lemma diff_invalid (u : unitOfTime) :
  isValid a = false \/ isValid b = false -> diff a b u = None.
Proof.
  unfold diff. intros [H|H]; rewrite H; cbn [negb];
    [|destruct (isValid a)]; reflexivity.
Qed.

Hypothesis Va : isValid a = true.
Hypothesis Vb : isValid b = true.

Lemma diff_Seconds : diff a b Seconds = Some (Z.quot (age a b) 1000).
Proof.
  unfold diff. rewrite Va, Vb. cbn [negb].
  rewrite absFloor_quot by lia. reflexivity.
Qed.

Lemma diff_Minutes : diff a b Minutes = Some (Z.quot (age a b) 60000).
Proof.
  unfold diff. rewrite Va, Vb. cbn [negb].
  rewrite absFloor_quot by lia. reflexivity.
Qed.

Lemma diff_Hours : diff a b Hours = Some (Z.quot (age a b) 3600000).
Proof.
  unfold diff. rewrite Va, Vb. cbn [negb].
  rewrite absFloor_quot by lia. reflexivity.
Qed.

Lemma diff_Days : diff a b Days = Some (Z.quot (age a b) msPerDay).
Proof.
  unfold diff. rewrite Va, Vb. cbn [negb].
  rewrite absFloor_quot by (unfold msPerDay; lia).
  unfold utcOffset, age. do 2 f_equal. lia.
Qed.

Lemma diff_Months : diff a b Months = Some (absFloor (monthDiff a b)).
Proof. unfold diff. rewrite Va, Vb. reflexivity. Qed.

Lemma diff_Years :
  diff a b Years = Some (absFloor (monthDiff a b / inject_Z 12)).
Proof. unfold diff. rewrite Va, Vb. reflexivity. Qed.

(** The checks on months and years, in terms of the calendar. *)
Lemma ge_1_Months : ge_1 (diff a b Months) = true <-> atLeastMonths 1 a b.
Proof.
  rewrite diff_Months. cbn [ge_1]. rewrite Z.leb_le, absFloor_ge_1.
  change 1%Q with (inject_Z 1). apply monthDiff_ge; assumption.
Qed.

Lemma ge_1_Years : ge_1 (diff a b Years) = true <-> atLeastMonths 12 a b.
Proof.
  rewrite diff_Years. cbn [ge_1]. rewrite Z.leb_le, absFloor_ge_1.
  rewrite <- (monthDiff_ge 12 a b Va Vb).
  change (inject_Z 12) with 12%Q. split; intros H.
  - assert (H' : (1 * 12 <= monthDiff a b / 12 * 12)%Q)
      by (apply Qmult_le_compat_r; [exact H|discriminate]).
    assert (E : (monthDiff a b / 12 * 12 == monthDiff a b)%Q) by field.
    rewrite E in H'. lra.
  - apply Qle_shift_div_l; [reflexivity|]. lra.
Qed.

(** The checks on months and years, in terms of the age. *)
Lemma diff_Months_age :
  (age a b < 28 * msPerDay -> ge_1 (diff a b Months) = false) /\
  (31 * msPerDay <= age a b -> ge_1 (diff a b Months) = true).
Proof.
  destruct (atLeastMonths_1_age a b Va Vb) as [Hmin Hmax]. split.
  - intros H. apply not_true_is_false. rewrite ge_1_Months. intros Hm.
    apply Hmin in Hm. lia.
  - intros H. apply ge_1_Months, Hmax, H.
Qed.

Lemma diff_Years_age :
  (age a b < 365 * msPerDay -> ge_1 (diff a b Years) = false) /\
  (366 * msPerDay <= age a b -> ge_1 (diff a b Years) = true).
Proof.
  destruct (atLeastMonths_12_age a b Va Vb) as [Hmin Hmax]. split.
  - intros H. apply not_true_is_false. rewrite ge_1_Years. intros Hm.
    apply Hmin in Hm. lia.
  - intros H. apply ge_1_Years, Hmax, H.
Qed.

(** Less than 28 days old: less than a month and less than a year old. *)
Lemma diff_young :
  age a b < 28 * msPerDay ->
  ge_1 (diff a b Months) = false /\ ge_1 (diff a b Years) = false.
Proof.
  intros H. split.
  - apply diff_Months_age, H.
  - apply diff_Years_age. unfold msPerDay in *. lia.
Qed.

End Counting.

(** A truncated quotient reaches 1 exactly when the dividend reaches the
    divisor. *)
Lemma ge_1_quot (x c : Z) : 0 < c -> ge_1 (Some (Z.quot x c)) = (c <=? x).
Proof.
  intros Hc. cbn [ge_1].
  destruct (Z.leb_spec c x) as [H|H].
  - apply Z.leb_le.
    pose proof (Z.quot_le_mono c x c Hc H) as Hq.
    rewrite Z.quot_same in Hq by lia. exact Hq.
  - apply Z.leb_gt. destruct (Z_lt_le_dec x 0) as [Hn|Hn].
    + pose proof (Z.quot_pos (- x) c ltac:(lia) Hc) as Hq.
      rewrite Z.quot_opp_l in Hq by lia. lia.
    + rewrite Z.quot_small by lia. lia.
Qed.

(** Going back [k] whole months. *)
Lemma diff_add_months (now : Moment.t) (k : Z) :
  Moment.isValid now = true -> 0 <= k ->
  Moment.diff now (Moment.add_months now (- k)) Moment.Months = Some k /\
  Moment.diff now (Moment.add_months now (- k)) Moment.Years =
  Some (k / 12).
Proof.
  intros V Hk.
  pose proof (MomentFacts.add_months_valid now (- k) V) as Vb.
  pose proof (MomentFacts.monthDiff_add_months now k V Hk) as E.
  rewrite (diff_Months _ _ V Vb), (diff_Years _ _ V Vb). split.
  - rewrite (MomentFacts.absFloor_comp _ _ E).
    rewrite MomentFacts.absFloor_inject_Z. reflexivity.
  - assert (E12 : (Moment.monthDiff now (Moment.add_months now (- k))
                   / inject_Z 12 == inject_Z k / inject_Z 12)%Q)
      by (rewrite E; reflexivity).
    rewrite (MomentFacts.absFloor_comp _ _ E12).
    rewrite MomentFacts.absFloor_quot by lia.
    rewrite Z.quot_div_nonneg by lia. reflexivity.
Qed.

(** ** The relative-time formatter *)

Section Formatter.

Variable moment : string -> Moment.t.
Variable now : Moment.t.

(** The string returned, by the return statement reached. *)
Lemma expiredAt_bucket (expires : string) :
  expiredAt moment now expires =
  match bucket moment now expires with
  | Some u =>
      ("expired " ++ Number_toString (Moment.diff now (moment expires) u)
       ++ " " ++ label u ++ " ago")%string
  | None => "expired just now"%string
  end.
Proof.
  unfold expiredAt, bucket. cbv zeta.
  repeat match goal with
         | |- context [if ge_1 ?n then _ else _] =>
             destruct (ge_1 n); [reflexivity|]
         end.
  reflexivity.
Qed.

Lemma bucket_coarsest (expires : string) (u : Moment.unitOfTime) :
  bucket moment now expires = Some u <->
  ge_1 (Moment.diff now (moment expires) u) = true /\
  forall v,
    coarseness u < coarseness v ->
    ge_1 (Moment.diff now (moment expires) v) = false.
Proof.
  unfold bucket.
  destruct (ge_1 (Moment.diff now (moment expires) Moment.Years)) eqn:Ey;
  [|destruct (ge_1 (Moment.diff now (moment expires) Moment.Months)) eqn:Emo;
  [|destruct (ge_1 (Moment.diff now (moment expires) Moment.Days)) eqn:Ed;
  [|destruct (ge_1 (Moment.diff now (moment expires) Moment.Hours)) eqn:Eh;
  [|destruct (ge_1 (Moment.diff now (moment expires) Moment.Minutes)) eqn:Emi;
  [|destruct (ge_1 (Moment.diff now (moment expires) Moment.Seconds))
      eqn:Es]]]]].
  all: split;
    [ intros H;
      first [ discriminate H
            | injection H as <-; split;
              [ assumption
              | intros v Hv; destruct v; cbn in Hv; try lia; assumption ] ]
    | intros [Hu Hc]; destruct u; try reflexivity; exfalso;
      first [ congruence
            | rewrite (Hc Moment.Years) in Ey by (cbn; lia); discriminate
            | rewrite (Hc Moment.Months) in Emo by (cbn; lia); discriminate
            | rewrite (Hc Moment.Days) in Ed by (cbn; lia); discriminate
            | rewrite (Hc Moment.Hours) in Eh by (cbn; lia); discriminate
            | rewrite (Hc Moment.Minutes) in Emi by (cbn; lia); discriminate
            ] ].
Qed.

Lemma bucket_none (expires : string) :
  bucket moment now expires = None <->
  forall v, ge_1 (Moment.diff now (moment expires) v) = false.
Proof.
  unfold bucket. split.
  - intros H v.
    repeat match type of H with
           | (if ge_1 ?n then _ else _) = _ =>
               destruct (ge_1 n) eqn:?; [discriminate H|]
           end.
    destruct v; assumption.
  - intros H. rewrite !H. reflexivity.
Qed.

(** Below 28 days only the millisecond thresholds count. *)
Lemma bucket_young (expires : string) :
  Moment.isValid now = true -> Moment.isValid (moment expires) = true ->
  age now (moment expires) < 28 * Moment.msPerDay ->
  bucket moment now expires =
  if Moment.msPerDay <=? age now (moment expires) then Some Moment.Days
  else if 3600000 <=? age now (moment expires) then Some Moment.Hours
  else if 60000 <=? age now (moment expires) then Some Moment.Minutes
  else if 1000 <=? age now (moment expires) then Some Moment.Seconds
  else None.
Proof.
  intros Vn Ve Hy. destruct (diff_young now _ Vn Ve Hy) as [Hmo Hye].
  unfold bucket. rewrite Hmo, Hye.
  rewrite (diff_Days _ _ Vn Ve), (diff_Hours _ _ Vn Ve),
    (diff_Minutes _ _ Vn Ve), (diff_Seconds _ _ Vn Ve).
  rewrite !ge_1_quot by (unfold Moment.msPerDay; lia). reflexivity.
Qed.

(** The unit reported, by the age of the expiry.  Between 28 and 31 days
    and between 365 and 366 days the calendar decides. *)
Lemma rank_by_age (expires : string) :
  Moment.isValid now = true -> Moment.isValid (moment expires) = true ->
  let n := age now (moment expires) in
  let r := rank (bucket moment now expires) in
  (n < 1000 -> r = 0) /\
  (1000 <= n < 60000 -> r = 1) /\
  (60000 <= n < 3600000 -> r = 2) /\
  (3600000 <= n < Moment.msPerDay -> r = 3) /\
  (Moment.msPerDay <= n < 28 * Moment.msPerDay -> r = 4) /\
  (28 * Moment.msPerDay <= n < 31 * Moment.msPerDay -> 4 <= r <= 5) /\
  (31 * Moment.msPerDay <= n < 365 * Moment.msPerDay -> r = 5) /\
  (365 * Moment.msPerDay <= n < 366 * Moment.msPerDay -> 5 <= r <= 6) /\
  (366 * Moment.msPerDay <= n -> r = 6).
Proof.
  intros Vn Ve n r. subst n r.
  destruct (diff_Months_age now _ Vn Ve) as [Mlo Mhi].
  destruct (diff_Years_age now _ Vn Ve) as [Ylo Yhi].
  unfold bucket.
  rewrite (diff_Days _ _ Vn Ve), (diff_Hours _ _ Vn Ve),
    (diff_Minutes _ _ Vn Ve), (diff_Seconds _ _ Vn Ve).
  rewrite !ge_1_quot by (unfold Moment.msPerDay; lia).
  unfold Moment.msPerDay in *.
  destruct (ge_1 (Moment.diff now (moment expires) Moment.Years)) eqn:Ey;
    destruct (ge_1 (Moment.diff now (moment expires) Moment.Months)) eqn:Em.
  all: assert (Hy : if ge_1 (Moment.diff now (moment expires) Moment.Years)
                    then 365 * 86400000 <= age now (moment expires)
                    else age now (moment expires) < 366 * 86400000)
         by (rewrite Ey;
             first [ apply Z.nlt_ge; intros C; apply Ylo in C; discriminate C
                   | apply Z.nle_gt; intros C; apply Yhi in C;
                     discriminate C ]).
  all: assert (Hm : if ge_1 (Moment.diff now (moment expires) Moment.Months)
                    then 28 * 86400000 <= age now (moment expires)
                    else age now (moment expires) < 31 * 86400000)
         by (rewrite Em;
             first [ apply Z.nlt_ge; intros C; apply Mlo in C; discriminate C
                   | apply Z.nle_gt; intros C; apply Mhi in C;
                     discriminate C ]).
  all: rewrite Ey in Hy; rewrite Em in Hm.
  all: repeat match goal with
              | |- context [?c <=? ?x] => destruct (Z.leb_spec c x)
              end; cbn [rank coarseness]; lia.
Qed.

(** Older expiries are reported in coarser units, except inside the two
    windows where the calendar decides. *)
Lemma rank_monotone (younger older : string) :
  Moment.isValid now = true ->
  Moment.isValid (moment younger) = true ->
  Moment.isValid (moment older) = true ->
  age now (moment younger) <= age now (moment older) ->
  rank (bucket moment now younger) <= rank (bucket moment now older) \/
  (28 * Moment.msPerDay <= age now (moment younger) /\
   age now (moment older) < 31 * Moment.msPerDay) \/
  (365 * Moment.msPerDay <= age now (moment younger) /\
   age now (moment older) < 366 * Moment.msPerDay).
Proof.
  intros Vn Vy Vo Hle.
  pose proof (rank_by_age younger Vn Vy) as Hy.
  pose proof (rank_by_age older Vn Vo) as Ho.
  cbv zeta in Hy, Ho. unfold Moment.msPerDay in *.
  revert Hle Hy Ho.
  generalize (rank (bucket moment now younger))
    (rank (bucket moment now older)) (age now (moment younger))
    (age now (moment older)).
  clear. intros ry ro y o Hle Hy Ho.
  assert (interval : forall n,
            n < 1000 \/ 1000 <= n < 60000 \/ 60000 <= n < 3600000 \/
            3600000 <= n < 86400000 \/ 86400000 <= n < 28 * 86400000 \/
            28 * 86400000 <= n < 31 * 86400000 \/
            31 * 86400000 <= n < 365 * 86400000 \/
            365 * 86400000 <= n < 366 * 86400000 \/ 366 * 86400000 <= n)
    by (intros n; lia).
  destruct Hy as (Y1 & Y2 & Y3 & Y4 & Y5 & Y6 & Y7 & Y8 & Y9).
  destruct Ho as (O1 & O2 & O3 & O4 & O5 & O6 & O7 & O8 & O9).
  destruct (interval y) as [I|[I|[I|[I|[I|[I|[I|[I|I]]]]]]]];
    destruct (interval o) as [J|[J|[J|[J|[J|[J|[J|[J|J]]]]]]]];
    clear interval;
    repeat match goal with
           | H : ?P -> _, K : ?P |- _ => specialize (H K)
           end;
    repeat match goal with
           | H : _ -> _ |- _ => clear H
           end;
    lia.
Qed.

End Formatter.

(** C4, as the code has it.  [expiredAt] returns from the first threshold
    check that succeeds, going from years down to seconds: the coarsest unit
    whose count is at least 1.  What follows is for a zone whose offset
    never changes.  For every moment [now], an expiry 30 seconds,
    10 minutes, 5 hours or 3 days before it, or 2 or 13 calendar months
    before it, is reported in seconds, minutes, hours, days, months and by
    the years branch respectively.  By elapsed time the unit is seconds
    from 1 second, minutes from 1 minute, hours from 1 hour, days from 1 day,
    months from 31 days and years from 366 days; between 28 and 31 days and
    between 365 and 366 days the calendar decides between the two units.
    Outside these two windows an older expiry is never reported in a finer
    unit. *)
Theorem expiredAt_selects_coarsest (moment : string -> Moment.t)
  (now : Moment.t) :
  (forall expires,
     expiredAt moment now expires =
     match bucket moment now expires with
     | Some u =>
         ("expired " ++ Number_toString (Moment.diff now (moment expires) u)
          ++ " " ++ label u ++ " ago")%string
     | None => "expired just now"%string
     end) /\
  (forall expires u,
     bucket moment now expires = Some u <->
     ge_1 (Moment.diff now (moment expires) u) = true /\
     forall v,
       coarseness u < coarseness v ->
       ge_1 (Moment.diff now (moment expires) v) = false) /\
  (offset_never_changes -> Moment.isValid now = true ->
   forall expires,
     (Moment.isValid (moment expires) = true ->
      age now (moment expires) = 30 * 1000 ->
      bucket moment now expires = Some Moment.Seconds /\
      expiredAt moment now expires = "expired 30 seconds ago"%string) /\
     (Moment.isValid (moment expires) = true ->
      age now (moment expires) = 10 * 60000 ->
      bucket moment now expires = Some Moment.Minutes /\
      expiredAt moment now expires = "expired 10 minutes ago"%string) /\
     (Moment.isValid (moment expires) = true ->
      age now (moment expires) = 5 * 3600000 ->
      bucket moment now expires = Some Moment.Hours /\
      expiredAt moment now expires = "expired 5 hours ago"%string) /\
     (Moment.isValid (moment expires) = true ->
      age now (moment expires) = 3 * Moment.msPerDay ->
      bucket moment now expires = Some Moment.Days /\
      expiredAt moment now expires = "expired 3 days ago"%string) /\
     (moment expires = Moment.add_months now (- 2) ->
      bucket moment now expires = Some Moment.Months /\
      expiredAt moment now expires = "expired 2 months ago"%string) /\
     (moment expires = Moment.add_months now (- 13) ->
      bucket moment now expires = Some Moment.Years /\
      expiredAt moment now expires = "expired 1 months ago"%string)) /\
  (offset_never_changes -> Moment.isValid now = true ->
   forall expires,
     Moment.isValid (moment expires) = true ->
     let n := age now (moment expires) in
     let r := rank (bucket moment now expires) in
     (n < 1000 -> r = 0) /\
     (1000 <= n < 60000 -> r = 1) /\
     (60000 <= n < 3600000 -> r = 2) /\
     (3600000 <= n < Moment.msPerDay -> r = 3) /\
     (Moment.msPerDay <= n < 28 * Moment.msPerDay -> r = 4) /\
     (28 * Moment.msPerDay <= n < 31 * Moment.msPerDay -> 4 <= r <= 5) /\
     (31 * Moment.msPerDay <= n < 365 * Moment.msPerDay -> r = 5) /\
     (365 * Moment.msPerDay <= n < 366 * Moment.msPerDay -> 5 <= r <= 6) /\
     (366 * Moment.msPerDay <= n -> r = 6)) /\
  (offset_never_changes -> Moment.isValid now = true ->
   forall younger older,
     Moment.isValid (moment younger) = true ->
     Moment.isValid (moment older) = true ->
     age now (moment younger) <= age now (moment older) ->
     rank (bucket moment now younger) <= rank (bucket moment now older) \/
     (28 * Moment.msPerDay <= age now (moment younger) /\
      age now (moment older) < 31 * Moment.msPerDay) \/
     (365 * Moment.msPerDay <= age now (moment younger) /\
      age now (moment older) < 366 * Moment.msPerDay)).
Proof.
  split; [apply expiredAt_bucket|]. split; [apply bucket_coarsest|].
  split; [|split;
           [ intros _ Vn expires Ve;
             exact (rank_by_age moment now expires Vn Ve)
           | intros _ Vn younger older Vy Vo Hle;
             exact (rank_monotone moment now younger older Vn Vy Vo Hle) ]].
  intros _ Vn expires.
    assert (Hyoung :
      forall n, n < 28 * Moment.msPerDay ->
        Moment.isValid (moment expires) = true ->
        age now (moment expires) = n ->
        bucket moment now expires =
        (if Moment.msPerDay <=? n then Some Moment.Days
         else if 3600000 <=? n then Some Moment.Hours
         else if 60000 <=? n then Some Moment.Minutes
         else if 1000 <=? n then Some Moment.Seconds
         else None)).
    { intros n Hn Ve Ha.
      rewrite (bucket_young moment now expires Vn Ve) by (rewrite Ha; exact Hn).
      rewrite Ha. reflexivity. }
    split; [|split; [|split; [|split; [|split]]]].
    + intros Ve Ha. pose proof (Hyoung (30 * 1000) eq_refl Ve Ha) as Hb.
      change (bucket moment now expires = Some Moment.Seconds) in Hb.
      split; [exact Hb|].
      rewrite expiredAt_bucket, Hb, (diff_Seconds _ _ Vn Ve), Ha.
      reflexivity.
    + intros Ve Ha. pose proof (Hyoung (10 * 60000) eq_refl Ve Ha) as Hb.
      change (bucket moment now expires = Some Moment.Minutes) in Hb.
      split; [exact Hb|].
      rewrite expiredAt_bucket, Hb, (diff_Minutes _ _ Vn Ve), Ha.
      reflexivity.
    + intros Ve Ha. pose proof (Hyoung (5 * 3600000) eq_refl Ve Ha) as Hb.
      change (bucket moment now expires = Some Moment.Hours) in Hb.
      split; [exact Hb|].
      rewrite expiredAt_bucket, Hb, (diff_Hours _ _ Vn Ve), Ha.
      reflexivity.
    + intros Ve Ha.
      pose proof (Hyoung (3 * Moment.msPerDay) eq_refl Ve Ha) as Hb.
      change (bucket moment now expires = Some Moment.Days) in Hb.
      split; [exact Hb|].
      rewrite expiredAt_bucket, Hb, (diff_Days _ _ Vn Ve), Ha.
      reflexivity.
    + intros He.
      destruct (diff_add_months now 2 Vn ltac:(lia)) as [Hm Hy].
      change (Z.opp 2) with (Z.neg 2) in Hm, Hy.
      unfold expiredAt, bucket. rewrite He, Hy, Hm. split; reflexivity.
    + intros He.
      destruct (diff_add_months now 13 Vn ltac:(lia)) as [Hm Hy].
      change (Z.opp 13) with (Z.neg 13) in Hm, Hy.
      unfold expiredAt, bucket. rewrite He, Hy. split; reflexivity.
Qed.

Lemma expiredAt_selects_coarsest_witness :
  expiredAt parse_iso example_now "2022-05-10T09:29:30Z" =
  "expired 30 seconds ago"%string /\
  expiredAt parse_iso example_now "2022-05-10T09:20:00Z" =
  "expired 10 minutes ago"%string /\
  expiredAt parse_iso example_now "2022-05-10T04:30:00Z" =
  "expired 5 hours ago"%string /\
  expiredAt parse_iso example_now "2022-05-07T09:30:00Z" =
  "expired 3 days ago"%string /\
  expiredAt parse_iso example_now "2022-03-10T09:30:00Z" =
  "expired 2 months ago"%string /\
  expiredAt parse_iso example_now "2021-04-10T09:30:00Z" =
  "expired 1 months ago"%string /\
  rank (bucket parse_iso example_now "2022-01-01T00:00:00Z") = 5 /\
  rank (bucket parse_iso example_now "2022-05-10T09:29:30Z") <=
  rank (bucket parse_iso example_now "2022-05-07T09:30:00Z").
Proof.
  pose proof (expiredAt_selects_coarsest parse_iso example_now)
    as (_ & _ & Hs & Ht & Hm).
  assert (Hz : offset_never_changes) by (intros a b; reflexivity).
  specialize (Hs Hz eq_refl).
  split; [|split; [|split; [|split; [|split; [|split; [|split]]]]]].
  - pose proof (Hs "2022-05-10T09:29:30Z"%string) as (H & _).
    exact (proj2 (H eq_refl eq_refl)).
  - pose proof (Hs "2022-05-10T09:20:00Z"%string) as (_ & H & _).
    exact (proj2 (H eq_refl eq_refl)).
  - pose proof (Hs "2022-05-10T04:30:00Z"%string) as (_ & _ & H & _).
    exact (proj2 (H eq_refl eq_refl)).
  - pose proof (Hs "2022-05-07T09:30:00Z"%string) as (_ & _ & _ & H & _).
    exact (proj2 (H eq_refl eq_refl)).
  - pose proof (Hs "2022-03-10T09:30:00Z"%string) as (_ & _ & _ & _ & H & _).
    exact (proj2 (H eq_refl)).
  - pose proof (Hs "2021-04-10T09:30:00Z"%string) as (_ & _ & _ & _ & _ & H).
    exact (proj2 (H eq_refl)).
  - pose proof (Ht Hz eq_refl "2022-01-01T00:00:00Z"%string eq_refl)
      as (_ & _ & _ & _ & _ & _ & H & _).
    apply H. split; vm_compute; congruence.
  - destruct (Hm Hz eq_refl "2022-05-10T09:29:30Z"%string
                "2022-05-07T09:30:00Z"%string eq_refl eq_refl)
      as [H|[[H _]|[H _]]].
    + vm_compute. congruence.
    + exact H.
    + exfalso. apply H. reflexivity.
    + exfalso. apply H. reflexivity.
Defined.

(** C4 as stated fails: the formatter is not monotonic with age.  Months are
    counted on the calendar, so at noon on 28 February an expiry 29 days and
    12 hours old (30 January, midnight) counts as one month, while an expiry
    29 days and 18 hours old (29 January, 18:00) does not and is reported in
    days.  Across moments the same shows without end-of-month clamping:
    28 days before 1 March is a month, 30 days before 31 March is not. *)
Lemma expiredAt_not_monotonic :
  let now := parse_iso "2022-02-28T12:00:00Z" in
  let older := "2022-01-29T18:00:00Z"%string in
  let younger := "2022-01-30T00:00:00Z"%string in
  (Moment.isValid now = true /\ Moment.isValid (parse_iso older) = true /\
   Moment.isValid (parse_iso younger) = true) /\
  age now (parse_iso younger) < age now (parse_iso older) /\
  expiredAt parse_iso now younger = "expired 1 months ago"%string /\
  expiredAt parse_iso now older = "expired 29 days ago"%string /\
  rank (bucket parse_iso now older) < rank (bucket parse_iso now younger) /\
  age (parse_iso "2022-03-01T00:00:00Z") (parse_iso "2022-02-01T00:00:00Z") <
  age (parse_iso "2022-03-31T00:00:00Z") (parse_iso "2022-03-01T00:00:00Z") /\
  expiredAt parse_iso (parse_iso "2022-03-01T00:00:00Z")
    "2022-02-01T00:00:00Z" = "expired 1 months ago"%string /\
  expiredAt parse_iso (parse_iso "2022-03-31T00:00:00Z")
    "2022-03-01T00:00:00Z" = "expired 30 days ago"%string.
Proof.
  cbv zeta. repeat split; vm_compute; congruence.
Qed.

(** C6. Whenever the count of whole years is at least 1, [expiredAt] prints
    that count followed by the word "months".  Going back [k] calendar
    months, twelve or more, the count printed is [k / 12]; and every expiry
    at least 366 days old has a count of years of at least 1. *)
Theorem expiredAt_years_labelled_months (moment : string -> Moment.t)
  (now : Moment.t) (expires : string) :
  (forall n,
     Moment.diff now (moment expires) Moment.Years = Some n -> 1 <= n ->
     expiredAt moment now expires =
     ("expired " ++ NilZero.string_of_int (Z.to_int n) ++ " months ago")%string
     /\ bucket moment now expires = Some Moment.Years) /\
  (forall k,
     Moment.isValid now = true -> 12 <= k ->
     moment expires = Moment.add_months now (- k) ->
     Moment.diff now (moment expires) Moment.Years = Some (k / 12) /\
     1 <= k / 12 /\
     expiredAt moment now expires =
     ("expired " ++ NilZero.string_of_int (Z.to_int (k / 12))
      ++ " months ago")%string) /\
  (Moment.isValid now = true -> Moment.isValid (moment expires) = true ->
   366 * Moment.msPerDay <= age now (moment expires) ->
   exists n,
     Moment.diff now (moment expires) Moment.Years = Some n /\ 1 <= n /\
     expiredAt moment now expires =
     ("expired " ++ NilZero.string_of_int (Z.to_int n)
      ++ " months ago")%string).
Proof.
  assert (Hbranch :
    forall n,
      Moment.diff now (moment expires) Moment.Years = Some n -> 1 <= n ->
      expiredAt moment now expires =
      ("expired " ++ NilZero.string_of_int (Z.to_int n)
       ++ " months ago")%string /\
      bucket moment now expires = Some Moment.Years).
  { intros n Hd Hn. unfold expiredAt, bucket. rewrite Hd. cbn [ge_1].
    apply Z.leb_le in Hn. rewrite Hn. split; reflexivity. }
  split; [exact Hbranch|]. split.
  - intros k Vn Hk He.
    destruct (diff_add_months now k Vn ltac:(lia)) as [_ Hy].
    rewrite <- He in Hy.
    assert (H1 : 1 <= k / 12) by (Z.to_euclidean_division_equations; lia).
    split; [exact Hy|]. split; [exact H1|].
    exact (proj1 (Hbranch _ Hy H1)).
  - intros Vn Ve Hage.
    pose proof (proj2 (diff_Years_age now (moment expires) Vn Ve) Hage) as Hg.
    destruct (Moment.diff now (moment expires) Moment.Years) as [n|] eqn:Ed;
      [|discriminate Hg].
    cbn [ge_1] in Hg. apply Z.leb_le in Hg.
    exists n. split; [reflexivity|]. split; [exact Hg|].
    exact (proj1 (Hbranch n eq_refl Hg)).
Qed.

Lemma expiredAt_years_labelled_months_witness :
  expiredAt parse_iso example_now "2019-05-10T09:30:00Z" =
  "expired 3 months ago"%string.
Proof.
  exact (proj2 (proj2 (proj1 (proj2 (expiredAt_years_labelled_months
                                       parse_iso example_now
                                       "2019-05-10T09:30:00Z"))
                         36 eq_refl ltac:(lia) eq_refl))).
Defined.

(** C9. [expiredAt] returns a string on every input: "expired just now", or
    a count that is at least 1 with the label of its branch.  For an expiry
    less than a second old, which covers every expiry at or after [now],
    every threshold check fails and the string is "expired just now"; so it
    is for a date string that does not parse. *)
Theorem expiredAt_total_just_now (moment : string -> Moment.t)
  (now : Moment.t) (expires : string) :
  (expiredAt moment now expires = "expired just now"%string \/
   exists u n,
     Moment.diff now (moment expires) u = Some n /\ 1 <= n /\
     expiredAt moment now expires =
     ("expired " ++ NilZero.string_of_int (Z.to_int n) ++ " " ++ label u
      ++ " ago")%string) /\
  (age now (moment expires) < 1000 ->
   (forall u, ge_1 (Moment.diff now (moment expires) u) = false) /\
   expiredAt moment now expires = "expired just now"%string) /\
  (Moment.isValid (moment expires) = false ->
   expiredAt moment now expires = "expired just now"%string).
Proof.
  assert (Hnone :
    (forall u, ge_1 (Moment.diff now (moment expires) u) = false) ->
    expiredAt moment now expires = "expired just now"%string).
  { intros H. rewrite expiredAt_bucket.
    rewrite (proj2 (bucket_none moment now expires) H). reflexivity. }
  split; [|split].
  - rewrite expiredAt_bucket.
    destruct (bucket moment now expires) as [u|] eqn:Eb; [right|left].
    + apply bucket_coarsest in Eb. destruct Eb as [Hu _].
      destruct (Moment.diff now (moment expires) u) as [n|] eqn:Ed;
        [|discriminate Hu].
      exists u, n. cbn [ge_1] in Hu. apply Z.leb_le in Hu.
      split; [exact Ed|]. split; [exact Hu|]. reflexivity.
    + reflexivity.
  - intros Hage.
    assert (Hall :
      forall u, ge_1 (Moment.diff now (moment expires) u) = false).
    { destruct (Moment.isValid now) eqn:Vn;
        [destruct (Moment.isValid (moment expires)) eqn:Ve|].
      - destruct (diff_young now (moment expires) Vn Ve) as [Hmo Hye].
        { unfold Moment.msPerDay. lia. }
        intros u. destruct u; try assumption.
        + rewrite (diff_Days _ _ Vn Ve), ge_1_quot
            by (unfold Moment.msPerDay; lia).
          apply Z.leb_gt. unfold Moment.msPerDay. lia.
        + rewrite (diff_Hours _ _ Vn Ve), ge_1_quot by lia.
          apply Z.leb_gt. lia.
        + rewrite (diff_Minutes _ _ Vn Ve), ge_1_quot by lia.
          apply Z.leb_gt. lia.
        + rewrite (diff_Seconds _ _ Vn Ve), ge_1_quot by lia.
          apply Z.leb_gt. lia.
      - intros u. rewrite diff_invalid by (right; exact Ve). reflexivity.
      - intros u. rewrite diff_invalid by (left; exact Vn). reflexivity. }
    split; [exact Hall|]. exact (Hnone Hall).
  - intros Ve. apply Hnone. intros u.
    rewrite diff_invalid by (right; exact Ve). reflexivity.
Qed.

Lemma expiredAt_total_just_now_witness :
  expiredAt parse_iso example_now "2022-05-10T09:30:00Z" =
  "expired just now"%string /\
  expiredAt parse_iso example_now "2031-01-01T00:00:00Z" =
  "expired just now"%string /\
  expiredAt parse_iso example_now "not a date" = "expired just now"%string.
Proof.
  split; [|split].
  - apply (proj1 (proj2 (expiredAt_total_just_now parse_iso example_now
                           "2022-05-10T09:30:00Z"))).
    vm_compute. reflexivity.
  - apply (proj1 (proj2 (expiredAt_total_just_now parse_iso example_now
                           "2031-01-01T00:00:00Z"))).
    vm_compute. reflexivity.
  - apply (proj2 (proj2 (expiredAt_total_just_now parse_iso example_now
                           "not a date"))).
    reflexivity.
Defined.

(** ** The guard of [fetchNext] and the [hasMore] prop *)

(** X1. [fetchNext] sends a query exactly when the [hasMore] prop handed to
    the infinite scroll is true; when it is false the call changes nothing,
    when it is true one query is sent, after the end cursor of the page
    before. *)
Theorem fetchNext_fetches_iff_has_more (client : ApolloClient)
  (now : Moment.t) (s : Store) :
  (has_more s = false -> fetchNext client now s = (Return tt, s)) /\
  (has_more s = true ->
   exists p,
     pageInfo s = Some p /\
     requests (snd (fetchNext client now s)) =
     requests s ++ [query_variables now (Some (Page.endCursor p))]) /\
  (requests (snd (fetchNext client now s)) = requests s <->
   has_more s = false).
Proof.
  assert (Hidle : has_more s = false ->
                  fetchNext client now s = (Return tt, s)).
  { unfold has_more. intros H. apply fetchNext_idle.
    destruct (pageInfo s) as [p|]; [right; eauto|left; reflexivity]. }
  assert (Hsend : has_more s = true ->
            exists p,
              pageInfo s = Some p /\
              requests (snd (fetchNext client now s)) =
              requests s ++ [query_variables now (Some (Page.endCursor p))]).
  { unfold has_more. intros H.
    destruct (pageInfo s) as [p|] eqn:Hp; [|discriminate H].
    exists p. split; [reflexivity|].
    destruct (fetchData_returns client now (Some (Page.endCursor p)) s)
      as (items & s' & Hf & _ & Hr).
    rewrite (fetchNext_unfold client now s p items s' Hp H Hf).
    destruct (domains s), items; exact Hr. }
  split; [exact Hidle|]. split; [exact Hsend|]. split.
  - intros Heq. destruct (has_more s) eqn:Hm; [|reflexivity].
    destruct (Hsend eq_refl) as (p & _ & Hr). rewrite Hr in Heq.
    apply (f_equal (@List.length _)) in Heq.
    rewrite length_app in Heq. cbn in Heq. lia.
  - intros Hm. rewrite (Hidle Hm). reflexivity.
Qed.

Lemma fetchNext_fetches_iff_has_more_witness :
  fetchNext client_ok example_now store_done = (Return tt, store_done) /\
  exists p,
    pageInfo store_loaded = Some p /\
    requests (snd (fetchNext client_ok example_now store_loaded)) =
    requests store_loaded
    ++ [query_variables example_now (Some (Page.endCursor p))].
Proof.
  split.
  - exact (proj1 (fetchNext_fetches_iff_has_more client_ok example_now
                    store_done) eq_refl).
  - exact (proj1 (proj2 (fetchNext_fetches_iff_has_more client_ok example_now
                           store_loaded)) eq_refl).
Defined.

(** ** Results without data *)

(** X2. The render of the state a refresh leaves throws exactly when the
    query of that refresh was answered without data.  Such a refresh sends
    its one query, leaves the cursor state alone and stores [undefined], and
    reading [domains.length] of that state throws a [TypeError]. *)
Theorem refresh_without_data_breaks_render (moment : string -> Moment.t)
  (client : ApolloClient) (now later : Moment.t) (s : Store) :
  ((exists e, render moment later (snd (refresh client now s)) = Throw e) <->
   without_data (client (query_variables now None))) /\
  (without_data (client (query_variables now None)) ->
   domains (snd (refresh client now s)) = None /\
   pageInfo (snd (refresh client now s)) = pageInfo s /\
   requests (snd (refresh client now s)) =
   requests s ++ [query_variables now None] /\
   render moment later (snd (refresh client now s)) =
   Throw (TypeError
            "Cannot read properties of undefined (reading 'length')")).
Proof.
  split.
  - destruct (settled_cases (client (query_variables now None)))
      as [[d Hc]|[Hc|[e Hc]]].
    + rewrite (refresh_unfold client now s _ _
                 (fetchData_with_data client now None s d Hc)).
      unfold render. cbn [snd domains]. split.
      * intros [e H]. discriminate H.
      * intros [H|H]; rewrite Hc in H; discriminate H.
    + rewrite (refresh_unfold client now s _ _
                 (fetchData_without_data client now None s Hc)).
      unfold render. cbn [snd domains]. split.
      * intros _. exact Hc.
      * intros _. eexists. reflexivity.
    + rewrite (refresh_unfold client now s _ _
                 (fetchData_rejected client now None s e Hc)).
      unfold render. cbn [snd domains]. split.
      * intros [e' H]. discriminate H.
      * intros [H|H]; rewrite Hc in H; discriminate H.
  - intros H.
    rewrite (refresh_unfold client now s _ _
               (fetchData_without_data client now None s H)).
    unfold render. cbn [snd domains pageInfo requests].
    split; [reflexivity|]. split; [reflexivity|]. split; reflexivity.
Qed.

Lemma refresh_without_data_breaks_render_witness :
  domains (snd (refresh client_empty example_now store_loaded)) = None /\
  pageInfo (snd (refresh client_empty example_now store_loaded)) =
  Some page_more /\
  render parse_iso example_now
    (snd (refresh client_empty example_now store_loaded)) =
  Throw (TypeError "Cannot read properties of undefined (reading 'length')").
Proof.
  destruct (proj2 (refresh_without_data_breaks_render parse_iso client_empty
                     example_now example_now store_loaded)
              (or_introl eq_refl)) as (H1 & H2 & _ & H4).
  split; [exact H1|]. split; [exact H2|exact H4].
Defined.

(** ** Failures and the cursor *)

(** X4. A refresh whose query is rejected empties the list but keeps the
    cursor state, so [hasMore] stays as it was; the [fetchNext] that follows
    asks for the page after the old cursor, and the list then holds that
    page alone, not the pages before it. *)
Theorem failed_refresh_then_fetchNext_resumes (failing client : ApolloClient)
  (now later : Moment.t) (s : Store) (p : Page.t) (e : Error)
  (page : Response.Data) :
  pageInfo s = Some p -> Page.hasNextPage p = true ->
  failing (query_variables now None) = Rejected e ->
  client (query_variables later (Some (Page.endCursor p))) = with_data page ->
  let emptied := snd (refresh failing now s) in
  domains emptied = Some [] /\ has_more emptied = true /\
  fst (fetchNext client later emptied) = Return tt /\
  domains (snd (fetchNext client later emptied)) =
  Some (domains_of_page page).
Proof.
  intros Hp Hnext Hfail Hdata emptied. subst emptied.
  rewrite (refresh_unfold failing now s _ _
             (fetchData_rejected failing now None s e Hfail)).
  cbn [snd domains pageInfo].
  split; [reflexivity|]. split; [unfold has_more; cbn; rewrite Hp; exact Hnext|].
  match goal with
  | |- context [fetchNext client later ?st] =>
      rewrite (fetchNext_unfold client later st p _ _ Hp Hnext
                 (fetchData_with_data client later _ st page Hdata))
  end.
  cbn [domains fst snd]. split; reflexivity.
Qed.

Lemma failed_refresh_then_fetchNext_resumes_witness :
  let emptied := snd (refresh client_down example_now store_paged) in
  domains emptied = Some [] /\ has_more emptied = true /\
  fst (fetchNext client_paged example_now emptied) = Return tt /\
  domains (snd (fetchNext client_paged example_now emptied)) =
  Some (domains_of_page (example_page ["c.tez"%string] "p2" true)).
Proof.
  exact (failed_refresh_then_fetchNext_resumes client_down client_paged
           example_now example_now store_paged page_one
           (ApolloError "Network error")
           (example_page ["c.tez"%string] "p2" true)
           eq_refl eq_refl eq_refl eq_refl).
Defined.

(** X5. A [fetchNext] whose query is rejected can be retried: it leaves the
    list and the cursor state as they were, the retry asks for the same
    cursor, and when the retry is answered the list and the cursor state
    are what a first answered [fetchNext] would have left. *)
Theorem failed_fetchNext_can_be_retried (failing client : ApolloClient)
  (now later : Moment.t) (s : Store) (p : Page.t) (existing : list Domain.t)
  (e : Error) :
  pageInfo s = Some p -> Page.hasNextPage p = true ->
  domains s = Some existing ->
  failing (query_variables now (Some (Page.endCursor p))) = Rejected e ->
  let failed := snd (fetchNext failing now s) in
  let retried := snd (fetchNext client later failed) in
  let direct := snd (fetchNext client later s) in
  domains failed = domains s /\ pageInfo failed = pageInfo s /\
  requests retried =
  requests s ++ [ query_variables now (Some (Page.endCursor p));
                  query_variables later (Some (Page.endCursor p)) ] /\
  fst (fetchNext client later failed) = fst (fetchNext client later s) /\
  domains retried = domains direct /\ pageInfo retried = pageInfo direct.
Proof.
  intros Hp Hnext Hd Hfail failed retried direct.
  subst failed retried direct.
  rewrite (fetchNext_unfold failing now s p _ _ Hp Hnext
             (fetchData_rejected failing now _ s e Hfail)), Hd.
  cbn [snd domains pageInfo]. rewrite app_nil_r.
  split; [reflexivity|]. split; [reflexivity|].
  match goal with
  | |- context [fetchNext client later (mkStore ?a ?b ?c ?d)] =>
      set (failed := mkStore a b c d)
  end.
  destruct (settled_cases
              (client (query_variables later (Some (Page.endCursor p)))))
    as [[d Hc]|[Hc|[e' Hc]]].
  - rewrite (fetchNext_unfold client later failed p _ _ Hp Hnext
               (fetchData_with_data client later _ failed d Hc)).
    rewrite (fetchNext_unfold client later s p _ _ Hp Hnext
               (fetchData_with_data client later _ s d Hc)), Hd.
    cbn. rewrite <- app_assoc. repeat split.
  - rewrite (fetchNext_unfold client later failed p _ _ Hp Hnext
               (fetchData_without_data client later _ failed Hc)).
    rewrite (fetchNext_unfold client later s p _ _ Hp Hnext
               (fetchData_without_data client later _ s Hc)), Hd.
    cbn. rewrite <- app_assoc. repeat split.
  - rewrite (fetchNext_unfold client later failed p _ _ Hp Hnext
               (fetchData_rejected client later _ failed e' Hc)).
    rewrite (fetchNext_unfold client later s p _ _ Hp Hnext
               (fetchData_rejected client later _ s e' Hc)), Hd.
    cbn. rewrite <- app_assoc. repeat split.
Qed.

Lemma failed_fetchNext_can_be_retried_witness :
  let failed := snd (fetchNext client_down example_now store_paged) in
  domains (snd (fetchNext client_paged example_now failed)) =
  domains (snd (fetchNext client_paged example_now store_paged)).
Proof.
  exact (proj1 (proj2 (proj2 (proj2 (proj2
           (failed_fetchNext_can_be_retried client_down client_paged
              example_now example_now store_paged page_one [carol]
              (ApolloError "Network error")
              eq_refl eq_refl eq_refl eq_refl)))))).
Defined.

(** ** Sessions *)

Lemma last_cons_default {A : Type} (l : list A) (x d : A) :
  last (x :: l) d = last l x.
Proof.
  revert x d. induction l as [|y l IH]; intros x d; [reflexivity|].
  change (last (x :: y :: l) d) with (last (y :: l) d).
  rewrite !IH. reflexivity.
Qed.

Lemma session_cons (o : Occurrence) (rest : list Occurrence) (s : Store) :
  session (o :: rest) s =
  (fst (handle o s) :: fst (session rest (snd (handle o s))),
   snd (session rest (snd (handle o s)))).
Proof.
  cbn [session]. destruct (handle o s) as [c s']. cbn [fst snd].
  destruct (session rest s') as [cs s'']. reflexivity.
Qed.

(** What one event does to the store: nothing, or one fetch. *)
Lemma handle_cases (o : Occurrence) (s : Store) :
  handle o s = (Return tt, s) \/
  exists after items s',
    fetchData (answers o) (at_ o) after s = (Return items, s') /\
    (handle o s =
     (Return tt, mkStore items (pageInfo s') (console s') (requests s')) \/
     (exists head tail,
        domains s = Some head /\ items = Some tail /\
        handle o s =
        (Return tt,
         mkStore (Some (head ++ tail)) (pageInfo s') (console s')
           (requests s'))) \/
     ((domains s = None \/ items = None) /\
      handle o s = (Throw (TypeError "undefined is not iterable"), s'))).
Proof.
  unfold handle. destruct (event o).
  - right.
    destruct (fetchData_returns (answers o) (at_ o) None s)
      as (items & s' & Hf & _).
    exists None, items, s'. split; [exact Hf|]. left.
    exact (refresh_unfold _ _ s items s' Hf).
  - destruct (has_more s) eqn:Hm.
    + right. unfold has_more in Hm.
      destruct (pageInfo s) as [p|] eqn:Hp; [|discriminate Hm].
      destruct (fetchData_returns (answers o) (at_ o)
                  (Some (Page.endCursor p)) s)
        as (items & s' & Hf & _).
      exists (Some (Page.endCursor p)), items, s'. split; [exact Hf|].
      right. rewrite (fetchNext_unfold _ _ s p items s' Hp Hm Hf).
      destruct (domains s) as [head|], items as [tail|]; eauto 8.
    + left. apply fetchNext_idle. unfold has_more in Hm.
      destruct (pageInfo s) as [p|]; [right; eauto|left; reflexivity].
Qed.

(** What one fetch does to the console and to the queries sent. *)
Lemma fetchData_logs (client : ApolloClient) (now : Moment.t)
  (after : option string) (s : Store) :
  exists entries,
    console (snd (fetchData client now after s)) = console s ++ entries /\
    logged_cursors entries = [after] /\
    requests (snd (fetchData client now after s)) =
    requests s ++ [query_variables now after] /\
    (fst (fetchData client now after s) = Return None <->
     without_data (client (query_variables now after))).
Proof.
  destruct (settled_cases (client (query_variables now after)))
    as [[d H]|[H|[e H]]].
  - rewrite (fetchData_with_data client now after s d H). cbn [fst snd].
    eexists. repeat split; try reflexivity.
    + intros C. discriminate C.
    + rewrite H. unfold with_data. intros [C|C]; discriminate C.
  - rewrite (fetchData_without_data client now after s H). cbn [fst snd].
    eexists. repeat split; try reflexivity. intros _. exact H.
  - rewrite (fetchData_rejected client now after s e H). cbn [fst snd].
    eexists. repeat split; try reflexivity.
    + intros C. discriminate C.
    + rewrite H. intros [C|C]; discriminate C.
Qed.

(** X6. As long as the client never answers without data, nothing goes
    wrong in a session: from a store whose list of domains is defined, every
    event handler returns normally, the list stays defined, and every
    render returns a view. *)
Theorem sessions_stay_defined (os : list Occurrence) (s : Store) :
  Forall (fun o => always_settles (answers o)) os ->
  domains s <> None ->
  Forall (fun c => c = Return tt) (fst (session os s)) /\
  domains (snd (session os s)) <> None /\
  forall moment now,
    exists view, render moment now (snd (session os s)) = Return view.
Proof.
  intros Hos. revert s.
  assert (Hrender : forall s, domains s <> None ->
            forall moment now, exists view, render moment now s = Return view).
  { intros s Hd moment now. unfold render.
    destruct (domains s); [eexists; reflexivity|congruence]. }
  induction Hos as [|o rest Ho _ IH]; intros s Hd.
  - cbn. split; [constructor|]. split; [exact Hd|]. exact (Hrender s Hd).
  - cbn [session].
    assert (Hstep : fst (handle o s) = Return tt /\
                    domains (snd (handle o s)) <> None).
    { destruct (handle_cases o s)
        as [H|(after & items & s' & Hf & [H|[(h & t & _ & _ & H)|[Hu H]]])];
        rewrite H; cbn [fst snd domains]; try (split; [reflexivity|]);
        try assumption; try discriminate.
      - destruct (fetchData_logs (answers o) (at_ o) after s)
          as (_ & _ & _ & _ & Hnone).
        rewrite Hf in Hnone. cbn [fst] in Hnone.
        destruct items; [discriminate|].
        exfalso. apply (Ho (query_variables (at_ o) after)).
        apply Hnone. reflexivity.
      - exfalso. destruct Hu as [Hu|Hu]; [congruence|]. subst items.
        destruct (fetchData_logs (answers o) (at_ o) after s)
          as (_ & _ & _ & _ & Hnone).
        rewrite Hf in Hnone. cbn [fst] in Hnone.
        apply (Ho (query_variables (at_ o) after)).
        apply Hnone. reflexivity. }
    destruct (handle o s) as [c s'] eqn:Hh. cbn [fst snd] in Hstep.
    destruct Hstep as [-> Hd'].
    specialize (IH s' Hd').
    destruct (session rest s') as [cs s'']. cbn [fst snd] in *.
    destruct IH as (Hcs & Hd'' & Hr).
    split; [constructor; [reflexivity|exact Hcs]|]. split; assumption.
Qed.

Lemma sessions_stay_defined_witness :
  domains
    (snd (session
            [ mkOccurrence Refresh client_down example_now;
              mkOccurrence Next client_paged example_now;
              mkOccurrence Refresh client_paged example_now ]
            store_initial)) <> None.
Proof.
  refine (proj1 (proj2 (sessions_stay_defined
                          [ mkOccurrence Refresh client_down example_now;
                            mkOccurrence Next client_paged example_now;
                            mkOccurrence Refresh client_paged example_now ]
                          store_initial _ _))).
  - repeat constructor; intros v [C|C]; cbn in C; try discriminate C;
      unfold client_paged, with_data in C;
      destruct (Query.after v) as [c|];
      repeat match type of C with
             | context [if ?b then _ else _] => destruct b
             end; discriminate C.
  - discriminate.
Defined.

(** X7. Whatever the client answers, a session only adds to the console and
    to the queries sent.  It sends at most one query per event, each with
    the parameters of [getDomains] for the moment of its event, and the
    "loading...." lines added to the console name the cursors of the
    queries sent, one line per query, in the order they were sent. *)
Theorem sessions_log_every_query (os : list Occurrence) (s : Store) :
  exists entries sent,
    console (snd (session os s)) = console s ++ entries /\
    requests (snd (session os s)) = requests s ++ sent /\
    logged_cursors entries = map Query.after sent /\
    (List.length sent <= List.length os)%nat /\
    Forall (fun v =>
              exists o,
                In o os /\ v = query_variables (at_ o) (Query.after v))
      sent.
Proof.
  revert s. induction os as [|o rest IH]; intros s.
  - exists [], []. cbn. rewrite !app_nil_r. repeat split; auto.
  - cbn [session].
    assert (Hstep : exists entries sent,
              console (snd (handle o s)) = console s ++ entries /\
              requests (snd (handle o s)) = requests s ++ sent /\
              logged_cursors entries = map Query.after sent /\
              (List.length sent <= 1)%nat /\
              Forall (fun v => v = query_variables (at_ o) (Query.after v))
                sent).
    { destruct (handle_cases o s)
        as [H|(after & items & s' & Hf & H)].
      - exists [], []. rewrite H. cbn. rewrite !app_nil_r. repeat split; auto.
      - destruct (fetchData_logs (answers o) (at_ o) after s)
          as (entries & Hc & Hl & Hr & _).
        rewrite Hf in Hc, Hr. cbn [snd] in Hc, Hr.
        exists entries, [query_variables (at_ o) after].
        assert (Hsnd : console (snd (handle o s)) = console s' /\
                       requests (snd (handle o s)) = requests s').
        { destruct H as [H|[(h & t & _ & _ & H)|[_ H]]]; rewrite H;
            split; reflexivity. }
        destruct Hsnd as [-> ->].
        repeat split; auto. }
    destruct (handle o s) as [c s'] eqn:Hh. cbn [snd] in Hstep.
    destruct Hstep as (e1 & q1 & Hc1 & Hr1 & Hl1 & Hn1 & Hf1).
    destruct (IH s') as (e2 & q2 & Hc2 & Hr2 & Hl2 & Hn2 & Hf2).
    destruct (session rest s') as [cs s'']. cbn [snd] in *.
    exists (e1 ++ e2), (q1 ++ q2).
    rewrite Hc2, Hc1, Hr2, Hr1, <- !app_assoc.
    split; [reflexivity|]. split; [reflexivity|]. split; [|split].
    + unfold logged_cursors in *. rewrite flat_map_app, map_app, Hl1, Hl2.
      reflexivity.
    + rewrite length_app. cbn [List.length]. lia.
    + apply Forall_app. split.
      * eapply Forall_impl; [|exact Hf1]. intros v Hv.
        exists o. split; [left; reflexivity|exact Hv].
      * eapply Forall_impl; [|exact Hf2]. intros v (o' & Hin & Hv).
        exists o'. split; [right; exact Hin|exact Hv].
Qed.

(** X8. Paging through: when the client serves a first page to a query
    without cursor and, to the end cursor of each page, the page that
    follows, a refresh followed by one [fetchNext] per further page leaves
    the list holding the entries of all the pages in order.  Every handler
    returns normally, the cursor state is that of the last page, and when
    the last page says there is no next page, further calls of [fetchNext]
    change nothing. *)
Theorem paging_collects_all_pages (client : ApolloClient) (now : Moment.t)
  (first_page : Response.Data) (further : list Response.Data) (s : Store) :
  serves client now None (first_page :: further) ->
  let os :=
    mkOccurrence Refresh client now
    :: repeat (mkOccurrence Next client now) (List.length further) in
  let last_page := last further first_page in
  Forall (fun c => c = Return tt) (fst (session os s)) /\
  domains (snd (session os s)) =
  Some (flat_map domains_of_page (first_page :: further)) /\
  pageInfo (snd (session os s)) =
  Some (Response.pageInfo (Response.domains last_page)) /\
  (Page.hasNextPage (Response.pageInfo (Response.domains last_page)) = false
   -> forall client' now',
        fetchNext client' now' (snd (session os s)) =
        (Return tt, snd (session os s))).
Proof.
  intros Hserves os last_page. subst os last_page.
  assert (Hnext : forall further s page held,
    pageInfo s = Some (Response.pageInfo (Response.domains page)) ->
    domains s = Some held ->
    (further <> [] ->
     Page.hasNextPage (Response.pageInfo (Response.domains page)) = true) ->
    serves client now
      (Some (Page.endCursor (Response.pageInfo (Response.domains page))))
      further ->
    Forall (fun c => c = Return tt)
      (fst (session (repeat (mkOccurrence Next client now)
                       (List.length further)) s)) /\
    domains (snd (session (repeat (mkOccurrence Next client now)
                             (List.length further)) s)) =
    Some (held ++ flat_map domains_of_page further) /\
    pageInfo (snd (session (repeat (mkOccurrence Next client now)
                              (List.length further)) s)) =
    Some (Response.pageInfo (Response.domains (last further page)))).
  { clear. intros further.
    induction further as [|next rest IH]; intros s page held Hp Hd Hmore Hs.
    - cbn. rewrite app_nil_r. split; [constructor|]. split; assumption.
    - destruct Hs as (Hc & Hmore' & Hs').
      cbn [List.length repeat]. rewrite session_cons.
      assert (Hh : handle (mkOccurrence Next client now) s =
                   (Return tt,
                    mkStore (Some (held ++ domains_of_page next))
                      (Some (Response.pageInfo (Response.domains next)))
                      (console s
                       ++ [Log "loading...."
                             (Some (Page.endCursor
                                      (Response.pageInfo
                                         (Response.domains page))))])
                      (requests s
                       ++ [query_variables now
                             (Some (Page.endCursor
                                      (Response.pageInfo
                                         (Response.domains page))))]))).
      { unfold handle. cbn [event answers at_].
        rewrite (fetchNext_unfold client now s _ _ _ Hp
                   (Hmore ltac:(discriminate))
                   (fetchData_with_data client now _ s next Hc)), Hd.
        reflexivity. }
      rewrite Hh. cbn [fst snd].
      match goal with
      | |- context [session _ ?st] =>
          destruct (IH st next (held ++ domains_of_page next)
                      eq_refl eq_refl Hmore' Hs') as (Hcs & Hd'' & Hp'')
      end.
      split; [constructor; [reflexivity|exact Hcs]|]. split.
      + rewrite Hd''. cbn [flat_map]. rewrite <- app_assoc. reflexivity.
      + rewrite Hp'', last_cons_default. reflexivity. }
  destruct Hserves as (Hc & Hmore & Hs).
  rewrite session_cons.
  assert (Hh : handle (mkOccurrence Refresh client now) s =
               (Return tt,
                mkStore (Some (domains_of_page first_page))
                  (Some (Response.pageInfo (Response.domains first_page)))
                  (console s ++ [Log "loading...." None])
                  (requests s ++ [query_variables now None]))).
  { unfold handle. cbn [event answers at_].
    rewrite (refresh_unfold client now s _ _
               (fetchData_with_data client now None s first_page Hc)).
    reflexivity. }
  rewrite Hh. cbn [fst snd].
  match goal with
  | |- context [session _ ?st] =>
      destruct (Hnext further st first_page (domains_of_page first_page)
                  eq_refl eq_refl Hmore Hs) as (Hcs & Hd'' & Hp'')
  end.
  split; [constructor; [reflexivity|exact Hcs]|]. split; [exact Hd''|].
  split; [exact Hp''|].
  intros Hlast client' now'. apply fetchNext_idle. right.
  eexists. split; [exact Hp''|exact Hlast].
Qed.

Lemma paging_collects_all_pages_witness :
  domains
    (snd (session
            [ mkOccurrence Refresh client_paged example_now;
              mkOccurrence Next client_paged example_now;
              mkOccurrence Next client_paged example_now ]
            store_loaded)) =
  Some [ Domain.mk "a.tez" "2022-05-04T10:00:00Z";
         Domain.mk "b.tez" "2022-05-04T10:00:00Z";
         Domain.mk "c.tez" "2022-05-04T10:00:00Z";
         Domain.mk "d.tez" "2022-05-04T10:00:00Z";
         Domain.mk "e.tez" "2022-05-04T10:00:00Z" ].
Proof.
  refine (proj1 (proj2 (paging_collects_all_pages client_paged example_now
                          (example_page ["a.tez"%string; "b.tez"%string]
                             "p1" true)
                          [ example_page ["c.tez"%string] "p2" true;
                            example_page ["d.tez"%string; "e.tez"%string]
                              "p3" false ]
                          store_loaded _))).
  cbn. repeat split; intros H;
    first [reflexivity | exfalso; apply H; reflexivity].
Defined.

(** ** Rows *)

Lemma nth_error_map_indexed {A B : Type} (f : A -> nat -> B) (l : list A)
  (index n : nat) :
  nth_error (map_indexed f index l) n =
  option_map (fun x => f x (index + n)%nat) (nth_error l n).
Proof.
  revert index n. induction l as [|x l IH]; intros index n.
  - destruct n; reflexivity.
  - destruct n as [|n]; cbn [map_indexed nth_error option_map].
    + rewrite Nat.add_0_r. reflexivity.
    + rewrite IH. destruct (nth_error l n); cbn [option_map];
        [rewrite Nat.add_succ_comm|]; reflexivity.
Qed.

Lemma map_indexed_app {A B : Type} (f : A -> nat -> B) (l1 l2 : list A)
  (index : nat) :
  map_indexed f index (l1 ++ l2) =
  map_indexed f index l1
  ++ map_indexed f (index + List.length l1)%nat l2.
Proof.
  revert index. induction l1 as [|x l1 IH]; intros index.
  - cbn. rewrite Nat.add_0_r. reflexivity.
  - cbn [app map_indexed List.length]. rewrite IH, Nat.add_succ_comm.
    reflexivity.
Qed.

Lemma length_map_indexed {A B : Type} (f : A -> nat -> B) (l : list A)
  (index : nat) :
  List.length (map_indexed f index l) = List.length l.
Proof.
  revert index. induction l as [|x l IH]; intros index; [reflexivity|].
  cbn. rewrite IH. reflexivity.
Qed.

(** X9. From the answer to the screen: after a refresh that is answered
    with data, the view has one row per edge, in the order of the edges; the
    row at position [n] has key [n] and shows the name of the node, the link
    to the page of that name, and the expiry of the node in both renderings.
    For a name of ASCII characters the avatar is its first two characters.
    [dataLength] is the number of edges and [hasMore] is the [hasNextPage]
    of the answer. *)
Theorem refresh_then_render (moment : string -> Moment.t)
  (client : ApolloClient) (now later : Moment.t) (s : Store)
  (page : Response.Data) :
  client (query_variables now None) = with_data page ->
  let edges := Response.edges (Response.domains page) in
  exists view,
    render moment later (snd (refresh client now s)) = Return view /\
    dataLength view = List.length edges /\
    hasMore view =
    Page.hasNextPage (Response.pageInfo (Response.domains page)) /\
    List.length (rows view) = List.length edges /\
    forall n edge,
      nth_error edges n = Some edge ->
      exists row,
        nth_error (rows view) n = Some row /\
        key row = n /\
        text row = Node.name (Response.node edge) /\
        href row = ("https://app.tezos.domains/domain/"
                    ++ Node.name (Response.node edge))%string /\
        relative row =
        expiredAt moment later (Node.expires (Response.node edge)) /\
        absolute row =
        MomentFormat.format (moment (Node.expires (Response.node edge))) /\
        (ascii_only (Node.name (Response.node edge)) = true ->
         avatar row = substring 0 2 (Node.name (Response.node edge))).
Proof.
  intros H edges.
  rewrite (refresh_unfold client now s _ _
             (fetchData_with_data client now None s page H)).
  unfold render. cbn [snd domains]. eexists. split; [reflexivity|].
  cbn [dataLength hasMore rows]. split; [apply length_map|].
  split; [reflexivity|]. split.
  - rewrite length_map_indexed. apply length_map.
  - intros n edge Hn.
    rewrite nth_error_map_indexed, nth_error_map. fold edges. rewrite Hn.
    cbn [option_map]. eexists. split; [reflexivity|].
    unfold render_row, domain_of_edge.
    cbn [key text href relative absolute avatar Domain.name Domain.expires].
    repeat split.
Qed.

Lemma refresh_then_render_witness :
  exists view row,
    render parse_iso example_now
      (snd (refresh client_ok example_now store_initial)) = Return view /\
    dataLength view = 2%nat /\ hasMore view = true /\
    nth_error (rows view) 1 = Some row /\
    key row = 1%nat /\ text row = "bob.tez"%string /\
    href row = "https://app.tezos.domains/domain/bob.tez"%string /\
    relative row = "expired 7 days ago"%string /\
    absolute row = "05/03/2022 08:15:00"%string /\
    avatar row = "bo"%string.
Proof.
  destruct (refresh_then_render parse_iso client_ok example_now example_now
              store_initial example_data eq_refl)
    as (view & Hv & Hl & Hm & _ & Hrows).
  destruct (Hrows 1%nat _ eq_refl)
    as (row & Hr & Hk & Ht & Hh & Hrel & Habs & Hav).
  exists view, row. split; [exact Hv|]. split; [exact Hl|].
  split; [exact Hm|]. split; [exact Hr|]. split; [exact Hk|].
  split; [exact Ht|]. split; [exact Hh|]. split; [exact Hrel|].
  split; [exact Habs|exact (Hav eq_refl)].
Defined.

(** X10. Appending keeps the rows on the screen: after a [fetchNext] that is
    answered with data, the rows rendered before are rendered again, with
    the same keys, followed by the rows of the new entries, whose keys go on
    from the old length; [dataLength] grows by the number of edges. *)
Theorem fetchNext_keeps_rows (moment : string -> Moment.t)
  (client : ApolloClient) (now later : Moment.t) (s : Store) (p : Page.t)
  (page : Response.Data) (before : View) :
  pageInfo s = Some p -> Page.hasNextPage p = true ->
  client (query_variables now (Some (Page.endCursor p))) = with_data page ->
  render moment later s = Return before ->
  exists after,
    render moment later (snd (fetchNext client now s)) = Return after /\
    rows after =
    rows before
    ++ map_indexed (render_row moment later) (dataLength before)
         (domains_of_page page) /\
    dataLength after =
    (dataLength before
     + List.length (Response.edges (Response.domains page)))%nat.
Proof.
  intros Hp Hm Hc Hr. unfold render in Hr.
  destruct (domains s) as [existing|] eqn:Hd; [|discriminate Hr].
  injection Hr as <-.
  rewrite (fetchNext_unfold client now s p _ _ Hp Hm
             (fetchData_with_data client now _ s page Hc)), Hd.
  unfold render. cbn [snd domains]. eexists. split; [reflexivity|].
  cbn [rows dataLength]. split.
  - rewrite map_indexed_app. reflexivity.
  - rewrite length_app, length_map. reflexivity.
Qed.

Lemma fetchNext_keeps_rows_witness :
  exists after,
    render parse_iso example_now
      (snd (fetchNext client_paged example_now store_paged)) = Return after /\
    dataLength after = 2%nat.
Proof.
  destruct (fetchNext_keeps_rows parse_iso client_paged example_now
              example_now store_paged page_one
              (example_page ["c.tez"%string] "p2" true)
              (mkView 1 true
                 (map_indexed (render_row parse_iso example_now) 0 [carol]))
              eq_refl eq_refl eq_refl eq_refl)
    as (after & Hr & _ & Hl).
  exists after. split; [exact Hr|exact Hl].
Defined.

(** ** What the formatter prints *)

(** The string for an expiry less than 28 days old, where every moment has
    the offset of the model. *)
Lemma expiredAt_young_string (moment : string -> Moment.t) (now : Moment.t)
  (expires : string) :
  Moment.isValid now = true -> Moment.isValid (moment expires) = true ->
  let n := age now (moment expires) in
  n < 28 * Moment.msPerDay ->
  expiredAt moment now expires =
  if Moment.msPerDay <=? n then
    ("expired " ++ NilZero.string_of_int (Z.to_int (n / Moment.msPerDay))
     ++ " days ago")%string
  else if 3600000 <=? n then
    ("expired " ++ NilZero.string_of_int (Z.to_int (n / 3600000))
     ++ " hours ago")%string
  else if 60000 <=? n then
    ("expired " ++ NilZero.string_of_int (Z.to_int (n / 60000))
     ++ " minutes ago")%string
  else if 1000 <=? n then
    ("expired " ++ NilZero.string_of_int (Z.to_int (n / 1000))
     ++ " seconds ago")%string
  else "expired just now"%string.
Proof.
  intros Vn Ve n Hn. subst n.
  rewrite expiredAt_bucket, (bucket_young moment now expires Vn Ve Hn).
  unfold Moment.msPerDay in *.
  repeat match goal with
         | |- context [?c <=? ?x] => destruct (Z.leb_spec c x)
         end;
    rewrite ?(diff_Days _ _ Vn Ve), ?(diff_Hours _ _ Vn Ve),
      ?(diff_Minutes _ _ Vn Ve), ?(diff_Seconds _ _ Vn Ve);
    unfold Moment.msPerDay; cbn [Number_toString label];
    rewrite ?Z.quot_div_nonneg by lia; reflexivity.
Qed.

(** X12. In a zone whose offset never changes, and for one reading of the
    clock, the string for an expiry less than 28 days old is decided by the
    age alone: the whole days when there is at least one, else the whole
    hours, else the whole minutes, else the whole seconds, else "expired
    just now". *)
Theorem expiredAt_by_age (moment : string -> Moment.t) (now : Moment.t)
  (expires : string) :
  offset_never_changes ->
  Moment.isValid now = true -> Moment.isValid (moment expires) = true ->
  let n := age now (moment expires) in
  n < 28 * Moment.msPerDay ->
  expiredAt moment now expires =
  if Moment.msPerDay <=? n then
    ("expired " ++ NilZero.string_of_int (Z.to_int (n / Moment.msPerDay))
     ++ " days ago")%string
  else if 3600000 <=? n then
    ("expired " ++ NilZero.string_of_int (Z.to_int (n / 3600000))
     ++ " hours ago")%string
  else if 60000 <=? n then
    ("expired " ++ NilZero.string_of_int (Z.to_int (n / 60000))
     ++ " minutes ago")%string
  else if 1000 <=? n then
    ("expired " ++ NilZero.string_of_int (Z.to_int (n / 1000))
     ++ " seconds ago")%string
  else "expired just now"%string.
Proof.
  intros _. exact (expiredAt_young_string moment now expires).
Qed.

Lemma expiredAt_by_age_witness :
  offset_never_changes /\
  expiredAt parse_iso example_now "2022-05-09T06:00:00Z" =
  "expired 1 days ago"%string.
Proof.
  assert (Hz : offset_never_changes) by (intros a b; reflexivity).
  split; [exact Hz|].
  exact (expiredAt_by_age parse_iso example_now "2022-05-09T06:00:00Z"
           Hz eq_refl eq_refl ltac:(vm_compute; reflexivity)).
Defined.

(** X13. Months and years read the same: an expiry [k] calendar months
    back and an expiry [k] calendar years back, for [k] from 1 to 11, give
    the same string, although the first comes from the months branch and
    the second from the years branch. *)
Theorem expiredAt_confuses_months_and_years (moment : string -> Moment.t)
  (now : Moment.t) (months_ago years_ago : string) (k : Z) :
  Moment.isValid now = true -> 1 <= k <= 11 ->
  moment months_ago = Moment.add_months now (- k) ->
  moment years_ago = Moment.add_months now (- (12 * k)) ->
  bucket moment now months_ago = Some Moment.Months /\
  bucket moment now years_ago = Some Moment.Years /\
  expiredAt moment now months_ago = expiredAt moment now years_ago /\
  expiredAt moment now years_ago =
  ("expired " ++ NilZero.string_of_int (Z.to_int k) ++ " months ago")%string.
Proof.
  intros Vn Hk Hmo Hye.
  destruct (diff_add_months now k Vn ltac:(lia)) as [Hm1 Hy1].
  destruct (diff_add_months now (12 * k) Vn ltac:(lia)) as [_ Hy2].
  rewrite <- Hmo in Hm1, Hy1. rewrite <- Hye in Hy2.
  assert (E0 : k / 12 = 0) by (apply Z.div_small; lia).
  assert (Ek : 12 * k / 12 = k)
    by (rewrite Z.mul_comm; apply Z.div_mul; lia).
  rewrite E0 in Hy1. rewrite Ek in Hy2.
  assert (Hk1 : (1 <=? k) = true) by (apply Z.leb_le; lia).
  unfold bucket, expiredAt. rewrite Hy1, Hm1, Hy2. cbn [ge_1].
  rewrite Hk1. cbn. repeat split.
Qed.

Lemma expiredAt_confuses_months_and_years_witness :
  expiredAt parse_iso example_now "2022-02-10T09:30:00Z" =
  expiredAt parse_iso example_now "2019-05-10T09:30:00Z".
Proof.
  exact (proj1 (proj2 (proj2 (expiredAt_confuses_months_and_years parse_iso
                                example_now "2022-02-10T09:30:00Z"
                                "2019-05-10T09:30:00Z" 3
                                eq_refl ltac:(lia) eq_refl eq_refl)))).
Defined.

(** X14. What the query asks for is what the rows say, in a zone whose
    offset never changes: at the moment of the query, an expiry strictly
    inside the window the query filters on is more than 5 and less than 8
    days old, so its row reads 5, 6 or 7 days ago.  The window itself is
    two days wide and both its ends are valid dates. *)
Theorem window_rows_read_5_to_7_days (moment : string -> Moment.t)
  (now : Moment.t) (after : option string) (expires : string) :
  offset_never_changes ->
  Moment.isValid now = true -> Moment.isValid (moment expires) = true ->
  let filter := Query.expiresAtUtc (Query.where_ (query_variables now after))
  in
  Moment.valueOf (Query.greaterThan filter) < Moment.valueOf (moment expires)
  ->
  Moment.valueOf (moment expires) < Moment.valueOf (Query.lessThan filter) ->
  (Moment.isValid (Query.greaterThan filter) = true /\
   Moment.isValid (Query.lessThan filter) = true /\
   Moment.valueOf (Query.lessThan filter)
   - Moment.valueOf (Query.greaterThan filter) = 2 * Moment.msPerDay) /\
  exists n,
    5 <= n <= 7 /\
    Moment.diff now (moment expires) Moment.Days = Some n /\
    expiredAt moment now expires =
    ("expired " ++ NilZero.string_of_int (Z.to_int n) ++ " days ago")%string.
Proof.
  intros _ Vn Ve filter.
  assert (Elo : Query.greaterThan filter =
                Moment.subtract_days 7 (Moment.startOfDay now))
    by reflexivity.
  assert (Ehi : Query.lessThan filter =
                Moment.subtract_days 5 (Moment.startOfDay now))
    by reflexivity.
  rewrite Elo, Ehi. clear Elo Ehi filter. intros Hlo Hhi.
  pose proof (MomentFacts.startOfDay_valid now Vn) as Vt.
  destruct (MomentFacts.subtract_days_spec 7 _ Vt) as [V7 H7].
  destruct (MomentFacts.subtract_days_spec 5 _ Vt) as [V5 H5].
  destruct (MomentFacts.isValid_fields now Vn) as (_ & _ & Ht & _).
  assert (Hday : Moment.valueOf (Moment.startOfDay now) =
                 Moment.valueOf now - Moment.time now).
  { unfold Moment.valueOf, Moment.startOfDay.
    cbn [Moment.year Moment.month Moment.date Moment.time]. lia. }
  rewrite H7, H5, Hday in *. unfold Moment.msPerDay in *.
  split; [split; [exact V7|split; [exact V5|lia]]|].
  assert (Hage : 5 * 86400000 < age now (moment expires) < 8 * 86400000)
    by (unfold age; lia).
  exists (age now (moment expires) / 86400000).
  split; [Z.to_euclidean_division_equations; lia|].
  rewrite (diff_Days _ _ Vn Ve). unfold Moment.msPerDay.
  rewrite Z.quot_div_nonneg by lia. split; [reflexivity|].
  pose proof (expiredAt_young_string moment now expires Vn Ve) as Hs.
  cbv zeta in Hs. unfold Moment.msPerDay in Hs.
  rewrite Hs by lia.
  destruct (Z.leb_spec 86400000 (age now (moment expires))); [|lia].
  reflexivity.
Qed.

Lemma window_rows_read_5_to_7_days_witness :
  exists n,
    5 <= n <= 7 /\
    expiredAt parse_iso example_now "2022-05-04T10:00:00Z" =
    ("expired " ++ NilZero.string_of_int (Z.to_int n) ++ " days ago")%string.
Proof.
  assert (Hz : offset_never_changes) by (intros a b; reflexivity).
  destruct (window_rows_read_5_to_7_days parse_iso example_now None
              "2022-05-04T10:00:00Z" Hz eq_refl eq_refl
              ltac:(vm_compute; reflexivity) ltac:(vm_compute; reflexivity))
    as (_ & n & Hn & _ & Hs).
  exists n. split; [exact Hn|exact Hs].
Defined.

(** X15. The absolute rendering of an expiry uses the 12-hour clock and no
    meridiem: a moment in the morning and the moment twelve hours later are
    twelve hours apart and are printed the same. *)
Theorem format_drops_meridiem (a : Moment.t) :
  Moment.isValid a = true -> Moment.time a < 43200000 ->
  let b :=
    Moment.mk (Moment.year a) (Moment.month a) (Moment.date a)
      (Moment.time a + 43200000) in
  Moment.isValid b = true /\
  Moment.valueOf b = Moment.valueOf a + 43200000 /\
  MomentFormat.format b = MomentFormat.format a.
Proof.
  intros Va Hmorning b. subst b.
  destruct (MomentFacts.isValid_fields a Va) as (_ & _ & Ht & _).
  assert (Vb : Moment.isValid
                 (Moment.mk (Moment.year a) (Moment.month a) (Moment.date a)
                    (Moment.time a + 43200000)) = true).
  { pose proof Va as Vf. unfold Moment.isValid in *.
    cbn [Moment.year Moment.month Moment.date Moment.time].
    repeat (apply andb_prop in Vf; destruct Vf as [Vf ?]).
    repeat (apply andb_true_intro; split); try assumption;
      rewrite ?Z.leb_le, ?Z.ltb_lt; unfold Moment.msPerDay in *; lia. }
  split; [exact Vb|]. split.
  - unfold Moment.valueOf.
    cbn [Moment.year Moment.month Moment.date Moment.time]. lia.
  - unfold MomentFormat.format. rewrite Vb, Va.
    unfold MomentFormat.hFormat, MomentFormat.hours, MomentFormat.minutes,
      MomentFormat.seconds.
    cbn [Moment.year Moment.month Moment.date Moment.time].
    assert (Hh : ((Moment.time a + 43200000) / 3600000) mod 12 =
                 (Moment.time a / 3600000) mod 12)
      by (Z.to_euclidean_division_equations; lia).
    assert (Hmi : ((Moment.time a + 43200000) / 60000) mod 60 =
                  (Moment.time a / 60000) mod 60)
      by (Z.to_euclidean_division_equations; lia).
    assert (Hs : ((Moment.time a + 43200000) / 1000) mod 60 =
                 (Moment.time a / 1000) mod 60)
      by (Z.to_euclidean_division_equations; lia).
    rewrite Hh, Hmi, Hs. reflexivity.
Qed.

Lemma format_drops_meridiem_witness :
  MomentFormat.format (parse_iso "2022-05-04T15:05:09Z") =
  MomentFormat.format (parse_iso "2022-05-04T03:05:09Z").
Proof.
  exact (proj2 (proj2 (format_drops_meridiem
                         (parse_iso "2022-05-04T03:05:09Z")
                         eq_refl ltac:(vm_compute; reflexivity)))).
Defined.
